(** * SpendGuardian backend: sheet parser and chart suggester

  A shallow embedding of [services/sheetParser.js] ([parseFile],
  [inferColumnType], [isLikelyDate]) and [services/chartSuggester.js]
  ([suggestCharts]), with the properties of the design document proved
  or refuted on it.

  JavaScript strings are sequences of UTF-16 code units; they are kept
  as lists of code units so that [trim], the regular expressions and the
  currency glyphs read as in the source. *)

From Stdlib Require Import NArith ZArith QArith Ascii String Decimal DecimalNat DecimalString.
From stdpp Require Import base decidable option list sets gmap.

Local Open Scope nat_scope.
Local Open Scope list_scope.

(** ** JavaScript strings *)

Module JsString.

Abbreviation t := (list N).

(** An ASCII literal of the source, as code units. *)
Fixpoint lit (s : string) : t :=
  match s with
  | EmptyString => []
  | String a s' => N_of_ascii a :: lit s'
  end.

(** [WhiteSpace] and [LineTerminator] of ECMAScript: what
    [String.prototype.trim] strips and what [\s] matches. *)
Definition isWhiteSpace (c : N) : bool :=
  ((9 <=? c) && (c <=? 13) || (c =? 32) || (c =? 160) || (c =? 5760)
   || (8192 <=? c) && (c <=? 8202) || (c =? 8232) || (c =? 8233)
   || (c =? 8239) || (c =? 8287) || (c =? 12288) || (c =? 65279))%N.

Fixpoint trimStart (s : t) : t :=
  match s with
  | [] => []
  | c :: s' => if isWhiteSpace c then trimStart s' else s
  end.

Definition trimEnd (s : t) : t := rev (trimStart (rev s)).

Definition trim (s : t) : t := trimEnd (trimStart s).

(** [s.replace(/\s+/g, '_')]: every maximal run of white space becomes
    one underscore.  [inRun] tells whether the previous unit was white
    space (its underscore is already written). *)
Fixpoint collapseFrom (inRun : bool) (s : t) : t :=
  match s with
  | [] => []
  | c :: s' =>
      if isWhiteSpace c
      then (if inRun then collapseFrom true s' else 95%N :: collapseFrom true s')
      else c :: collapseFrom false s'
  end.

Definition replaceWhiteSpaceRuns (s : t) : t := collapseFrom false s.

(** [String(n)] for an array index: the decimal digits. *)
Definition ofNat (n : nat) : t := lit (NilEmpty.string_of_uint (Nat.to_uint n)).

(** [String(z)] for an integer-valued number. *)
Definition ofZ (z : Z) : t := lit (NilEmpty.string_of_int (Z.to_int z)).

(** ASCII case folding; non-ASCII units are left as they are. *)
Definition asciiLowerUnit (c : N) : N :=
  if ((65 <=? c) && (c <=? 90))%N then (c + 32)%N else c.

Definition asciiLower (s : t) : t := map asciiLowerUnit s.

End JsString.

Abbreviation jsstring := JsString.t.
Notation "'js' s" := (JsString.lit s%string) (at level 5, s at level 0, only parsing).

(** ** Regular expressions

  [RegExp.prototype.test] only asks whether some match exists, so a
  pattern anchored by [^] and [$] is a membership test in the language
  of its body; membership is decided with Brzozowski derivatives. *)

Module Regex.

Inductive t : Type :=
| Void
| Eps
| Chars (p : N -> bool)
| Cat (r s : t)
| Alt (r s : t)
| Star (r : t).

Fixpoint nullable (r : t) : bool :=
  match r with
  | Void => false
  | Eps => true
  | Chars _ => false
  | Cat r s => nullable r && nullable s
  | Alt r s => nullable r || nullable s
  | Star _ => true
  end.

Fixpoint deriv (c : N) (r : t) : t :=
  match r with
  | Void => Void
  | Eps => Void
  | Chars p => if p c then Eps else Void
  | Cat r s =>
      if nullable r then Alt (Cat (deriv c r) s) (deriv c s)
      else Cat (deriv c r) s
  | Alt r s => Alt (deriv c r) (deriv c s)
  | Star r => Cat (deriv c r) (Star r)
  end.

(** [/^r$/.test(s)]. *)
Fixpoint matches (r : t) (s : jsstring) : bool :=
  match s with
  | [] => nullable r
  | c :: s' => matches (deriv c r) s'
  end.

Definition anyUnit : t := Chars (fun _ => true).

(** [/^r/.test(s)]: no [$], any suffix may follow. *)
Definition matchesPrefix (r : t) (s : jsstring) : bool :=
  matches (Cat r (Star anyUnit)) s.

Definition Opt (r : t) : t := Alt r Eps.
Definition Plus (r : t) : t := Cat r (Star r).

Fixpoint Seq (rs : list t) : t :=
  match rs with
  | [] => Eps
  | [r] => r
  | r :: rs' => Cat r (Seq rs')
  end.

Fixpoint AnyOf (rs : list t) : t :=
  match rs with
  | [] => Void
  | [r] => r
  | r :: rs' => Alt r (AnyOf rs')
  end.

(** [r{n}] and [r{n,m}]. *)
Fixpoint Exactly (n : nat) (r : t) : t :=
  match n with
  | O => Eps
  | S n' => Cat r (Exactly n' r)
  end.

Fixpoint UpTo (n : nat) (r : t) : t :=
  match n with
  | O => Eps
  | S n' => Opt (Cat r (UpTo n' r))
  end.

Definition Between (n m : nat) (r : t) : t := Cat (Exactly n r) (UpTo (m - n) r).

Definition Unit (c : N) : t := Chars (N.eqb c).
Definition OneOf (cs : list N) : t := Chars (fun c => existsb (N.eqb c) cs).

(** A literal, and a literal under the [i] flag.  Without the [u] flag
    the canonicalisation of the [i] flag never maps a unit above 127 to
    an ASCII one, so a Latin letter of the pattern matches exactly its
    two ASCII cases. *)
Definition Lit (s : string) : t := Seq (map Unit (JsString.lit s)).

Definition UnitCI (c : N) : t :=
  Chars (fun x => N.eqb (JsString.asciiLowerUnit x) (JsString.asciiLowerUnit c)).
Definition LitCI (s : string) : t := Seq (map UnitCI (JsString.lit s)).

(** [\d], [\s]. *)
Definition isDigit (c : N) : bool := ((48 <=? c) && (c <=? 57))%N.
Definition digit : t := Chars isDigit.
Definition space : t := Chars JsString.isWhiteSpace.

(** The language of a pattern, as the strings it matches in full. *)
Inductive Lang : t -> jsstring -> Prop :=
| LangEps : Lang Eps []
| LangChars (p : N -> bool) (c : N) : p c = true -> Lang (Chars p) [c]
| LangCat (r s : t) (u v : jsstring) : Lang r u -> Lang s v -> Lang (Cat r s) (u ++ v)
| LangAltL (r s : t) (u : jsstring) : Lang r u -> Lang (Alt r s) u
| LangAltR (r s : t) (u : jsstring) : Lang s u -> Lang (Alt r s) u
| LangStarNil (r : t) : Lang (Star r) []
| LangStarApp (r : t) (u v : jsstring) :
    Lang r u -> Lang (Star r) v -> Lang (Star r) (u ++ v).

End Regex.

(** ** The patterns of the source *)

Module Patterns.
Import Regex.

Definition minus : t := Unit 45.
Definition dot : t := Unit 46.
Definition comma : N := 44%N.

(** [[\d,]] *)
Definition digitOrComma : t := Chars (fun c => isDigit c || N.eqb c comma).

(** [(\.\d+)?] *)
Definition fraction : t := Opt (Cat dot (Plus digit)).

(** [[$£€¥₹₨]]: U+0024, U+00A3, U+20AC, U+00A5, U+20B9, U+20A8. *)
Definition currencyGlyph : t := OneOf [36; 163; 8364; 165; 8377; 8360]%N.

(** [/^-?\d+(\.\d+)?%$/] *)
Definition percentage : t := Seq [Opt minus; Plus digit; fraction; Unit 37].

(** [/^-?[$£€¥₹₨]\s?[\d,]+(\.\d+)?$|^[\d,]+(\.\d+)?\s?[$£€¥₹₨]$/] *)
Definition currency : t :=
  Alt (Seq [Opt minus; currencyGlyph; Opt space; Plus digitOrComma; fraction])
      (Seq [Plus digitOrComma; fraction; Opt space; currencyGlyph]).

(** [/^-?[\d,]+(\.\d+)?$/] *)
Definition number : t := Seq [Opt minus; Plus digitOrComma; fraction].

(** [[\/\-]] *)
Definition dateSep : t := OneOf [47; 45]%N.

(** [(Jan|Feb|Mar|Apr|May|Jun|Jul|Aug|Sep|Oct|Nov|Dec)] under [i]. *)
Definition month : t :=
  AnyOf (map LitCI ["Jan"; "Feb"; "Mar"; "Apr"; "May"; "Jun";
                    "Jul"; "Aug"; "Sep"; "Oct"; "Nov"; "Dec"]%string).

(** The four patterns of [isLikelyDate], in order. *)
Definition datePatterns : list t :=
  [ Seq [Between 1 2 digit; dateSep; Between 1 2 digit; dateSep; Between 2 4 digit];
    Seq [Exactly 4 digit; dateSep; Between 1 2 digit; dateSep; Between 1 2 digit];
    Seq [month; Plus space; Between 1 2 digit; Opt (Unit 44); Plus space; Exactly 4 digit];
    Seq [Between 1 2 digit; Plus space; month; Plus space; Exactly 4 digit] ].

(** [/^-?[\d$£€,.]+/]: anchored at the start only. *)
Definition looksLikeDataPrefix : t :=
  Cat (Opt minus)
      (Plus (Chars (fun c => isDigit c || existsb (N.eqb c) [36; 163; 8364; 44; 46]%N))).

End Patterns.

(** [isLikelyDate(str)]: [patterns.some(p => p.test(str.trim()))]. *)
Definition isLikelyDate (str : jsstring) : bool :=
  existsb (fun p => Regex.matches p (JsString.trim str)) Patterns.datePatterns.

(** ** Cells and the host's conversions

  The parser looks at a cell through [cell !== null], [String(cell)] and
  [cell instanceof Date] only.  What [String] gives for a number or a
  date instant, and [String.prototype.toLowerCase], belong to the
  JavaScript engine: they are the interface the development is
  parametric in. *)

Class Host : Type := {
  Num : Type;
  DateInstant : Type;
  numberToString : Num -> jsstring;
  dateToString : DateInstant -> jsstring;
  toLowerCase : jsstring -> jsstring
}.

Module SheetParser.

Section Definitions.

Context `{host : Host}.

(** A raw cell value.  [CUndefined] is what indexing a row out of range
    gives. *)
Inductive Cell : Type :=
| CNull
| CUndefined
| CStr (s : jsstring)
| CNum (n : Num)
| CDate (d : DateInstant).

(** [String(cell)] *)
Definition toString (c : Cell) : jsstring :=
  match c with
  | CNull => js "null"
  | CUndefined => js "undefined"
  | CStr s => s
  | CNum n => numberToString n
  | CDate d => dateToString d
  end.

(** [cell instanceof Date] *)
Definition instanceofDate (c : Cell) : bool :=
  match c with CDate _ => true | _ => false end.

(** [cell !== null] *)
Definition notNull (c : Cell) : bool :=
  match c with CNull => false | _ => true end.

(** [s !== ''] *)
Definition nonEmptyString (s : jsstring) : bool :=
  match s with [] => false | _ => true end.

(** [cell !== null && String(cell).trim() !== ''] *)
Definition isFilled (c : Cell) : bool :=
  notNull c && nonEmptyString (JsString.trim (toString c)).

(** [row[i]] *)
Definition cellAt (row : list Cell) (i : nat) : Cell :=
  default CUndefined (row !! i).

(** ** inferColumnType *)

Inductive ColumnType : Type := Date | Number | Currency | Percentage | Category | Text.

Definition typeName (t : ColumnType) : jsstring :=
  match t with
  | Date => js "Date"
  | Number => js "Number"
  | Currency => js "Currency"
  | Percentage => js "Percentage"
  | Category => js "Category"
  | Text => js "Text"
  end.

Record Counters : Type := {
  dateCount : nat;
  numberCount : nat;
  currencyCount : nat;
  percentageCount : nat
}.

(** One turn of the [for (const raw of values)] loop. *)
Definition countValue (k : Counters) (raw : Cell) : Counters :=
  let v := JsString.trim (toString raw) in
  if Regex.matches Patterns.percentage v then
    {| dateCount := dateCount k; numberCount := numberCount k;
       currencyCount := currencyCount k; percentageCount := S (percentageCount k) |}
  else if Regex.matches Patterns.currency v then
    {| dateCount := dateCount k; numberCount := numberCount k;
       currencyCount := S (currencyCount k); percentageCount := percentageCount k |}
  else if Regex.matches Patterns.number v then
    {| dateCount := dateCount k; numberCount := S (numberCount k);
       currencyCount := currencyCount k; percentageCount := percentageCount k |}
  else if instanceofDate raw || isLikelyDate v then
    {| dateCount := S (dateCount k); numberCount := numberCount k;
       currencyCount := currencyCount k; percentageCount := percentageCount k |}
  else k.

Definition countValues (values : list Cell) : Counters :=
  fold_left countValue values
    {| dateCount := 0; numberCount := 0; currencyCount := 0; percentageCount := 0 |}.

Definition threshold : Q := 6 # 10.

(** [count / total >= threshold].  The quotient of two array lengths
    and the literal 0.6 are doubles in the source; for lengths below
    2^32 the rounded quotient is at least the double nearest to 0.6
    exactly when the exact quotient is at least 3/5, so the test is
    taken over the rationals. *)
Definition reaches (count total : nat) : bool :=
  Qle_bool threshold (inject_Z (Z.of_nat count) / inject_Z (Z.of_nat total)).

(** [new Set(values.map(v => String(v).trim().toLowerCase()))] *)
Definition uniqueKeys (values : list Cell) : gset jsstring :=
  list_to_set (map (fun v => toLowerCase (JsString.trim (toString v))) values).

Definition inferColumnType (values : list Cell) : ColumnType :=
  match values with
  | [] => Text
  | _ =>
      let k := countValues values in
      let total := length values in
      if reaches (percentageCount k) total then Percentage
      else if reaches (currencyCount k) total then Currency
      else if reaches (dateCount k) total then Date
      else if reaches (numberCount k + currencyCount k) total then Number
      else if bool_decide (size (uniqueKeys values) <= 20) then Category
      else Text
  end.

(** ** parseFile *)

(** What [XLSX.read] gives, seen through the two things [parseFile]
    reads from it: the sheet names, and for a sheet name the
    array-of-arrays [XLSX.utils.sheet_to_json(workbook.Sheets[name],
    {header: 1, defval: null, raw: false})].  A name without a
    worksheet gives the empty array. *)
Record Workbook : Type := {
  SheetNames : list jsstring;
  Sheets : gmap jsstring (list (list Cell))
}.

Record Column : Type := {
  name : jsstring;
  type : ColumnType;
  sample : list Cell
}.

(** What an object inherits from.  [{}] starts from [Object.prototype];
    the accessor [__proto__] of [Object.prototype] can put [null] or an
    object in its place, and the only objects among the cells are the
    [Date] instances. *)
Inductive Prototype : Type :=
| ObjectPrototype
| NullPrototype
| DatePrototype (d : DateInstant).

(** A plain object: its own properties, as [Object.keys] and
    [JSON.stringify] see them, and its prototype. *)
Record JsObject : Type := {
  properties : gmap jsstring Cell;
  prototype : Prototype
}.

(** [{}] *)
Definition emptyObject : JsObject :=
  {| properties := ∅; prototype := ObjectPrototype |}.

(** [obj[key] = val].  Under every key but [__proto__] the write creates
    or replaces an own property: what [Object.prototype] and
    [Date.prototype] hold under other string keys are writable data
    properties.  Under [__proto__] an own property is replaced; without
    one the write goes up the prototype chain: from [Object.prototype]
    or a [Date] instance it reaches the [__proto__] accessor, whose
    setter puts [null] or an object in the place of the prototype and
    ignores every other value, creating no own property; from [null]
    there is nothing to reach and the write creates an own property. *)
Definition setProperty (obj : JsObject) (key : jsstring) (val : Cell) : JsObject :=
  let own := {| properties := <[key := val]> (properties obj);
                prototype := prototype obj |} in
  if bool_decide (key = js "__proto__") then
    match properties obj !! key, prototype obj with
    | Some _, _ => own
    | None, NullPrototype => own
    | None, _ =>
        match val with
        | CNull => {| properties := properties obj; prototype := NullPrototype |}
        | CDate d => {| properties := properties obj; prototype := DatePrototype d |}
        | _ => obj
        end
    end
  else own.

Record ParsedTable : Type := {
  sheetNames : list jsstring;
  selectedSheet : jsstring;
  rowCount : nat;
  columns : list Column;
  preview : list JsObject;
  rows : list JsObject
}.

Inductive Outcome (A : Type) : Type :=
| Return (a : A)
| Throw (message : jsstring).
Arguments Return {A} a.
Arguments Throw {A} message.

(** [selectedSheet && sheetNames.includes(selectedSheet) ? selectedSheet
    : sheetNames[0]], with [first] for [sheetNames[0]].  [None] is
    [null]; the empty string is falsy as well. *)
Definition targetSheetOf (sheetNames : list jsstring) (first : jsstring)
    (selectedSheet : option jsstring) : jsstring :=
  match selectedSheet with
  | Some s =>
      if nonEmptyString s && bool_decide (s ∈ sheetNames) then s else first
  | None => first
  end.

(** The header scan: the state of the loop and one turn of it. *)
Record Scan : Type := { headerRowIndex : nat; maxNonEmpty : nat }.

Definition scanRow (rawRows : list (list Cell)) (st : Scan) (i : nat) : Scan :=
  let nonEmpty := length (filter (fun cell => isFilled cell) (default [] (rawRows !! i))) in
  if maxNonEmpty st <? nonEmpty
  then {| headerRowIndex := i; maxNonEmpty := nonEmpty |}
  else st.

Definition scanHeader (rawRows : list (list Cell)) : Scan :=
  let scanLimit := min 10 (length rawRows) in
  fold_left (scanRow rawRows) (seq 0 scanLimit)
    {| headerRowIndex := 0; maxNonEmpty := 0 |}.

(** [rawHeaders.map((h, i) => ...)] *)
Definition headerName (i : nat) (h : Cell) : jsstring :=
  let clean := if notNull h then JsString.trim (toString h) else [] in
  if nonEmptyString clean then clean else js "Column_" ++ JsString.ofNat (i + 1).

Definition headersOf (rawHeaders : list Cell) : list jsstring :=
  imap headerName rawHeaders.

(** [row[0] ?? ''] *)
Definition firstOrEmpty (row : list Cell) : Cell :=
  match cellAt row 0 with
  | CNull | CUndefined => CStr []
  | c => c
  end.

Definition looksLikeData (row : list Cell) : bool :=
  let firstVal := JsString.trim (toString (firstOrEmpty row)) in
  Regex.matchesPrefix Patterns.looksLikeDataPrefix firstVal
  || instanceofDate (cellAt row 0).

(** The callback of the [dataRows] filter. *)
Definition keepRow (row : list Cell) : bool :=
  let nonEmpty := filter (fun cell => isFilled cell) row in
  if length nonEmpty =? 0 then false
  else if (length nonEmpty =? 1) && negb (looksLikeData row) then false
  else true.

Definition dataRowsOf (rawRows : list (list Cell)) (headerRowIndex : nat)
    : list (list Cell) :=
  filter (fun row => keepRow row) (drop (headerRowIndex + 1) rawRows).

Definition isActive (rawHeaders : list Cell) (dataRows : list (list Cell))
    (i : nat) : bool :=
  let hasHeaderName := isFilled (cellAt rawHeaders i) in
  let hasData := existsb (fun row => isFilled (cellAt row i)) dataRows in
  hasHeaderName || hasData.

Definition activeColIndicesOf (headers : list jsstring) (rawHeaders : list Cell)
    (dataRows : list (list Cell)) : list nat :=
  filter (fun i => isActive rawHeaders dataRows i) (imap (fun i _ => i) headers).

(** [activeColIndices.map(i => headers[i])]; every [i] is an index of
    [headers]. *)
Definition finalHeadersOf (headers : list jsstring) (activeColIndices : list nat)
    : list jsstring :=
  map (fun i => default [] (headers !! i)) activeColIndices.

Definition columnValues (dataRows : list (list Cell)) (colIndex : nat) : list Cell :=
  filter (fun v => isFilled v) (map (fun row => cellAt row colIndex) dataRows).

(** [finalHeaders.map((name, idx) => ...)]; [idx] is an index of
    [activeColIndices], which has the length of [finalHeaders]. *)
Definition columnsOf (finalHeaders : list jsstring) (activeColIndices : list nat)
    (dataRows : list (list Cell)) : list Column :=
  imap (fun idx name =>
          let colIndex := default 0 (activeColIndices !! idx) in
          let values := columnValues dataRows colIndex in
          {| name := name; type := inferColumnType values; sample := take 5 values |})
       finalHeaders.

(** One row object: starting from [{}], the [forEach] writes
    [obj[finalHeaders[idx]]] for each active column in turn. *)
Definition rowObject (finalHeaders : list jsstring) (activeColIndices : list nat)
    (row : list Cell) : JsObject :=
  fold_left
    (fun obj '(idx, colIndex) =>
       let val := cellAt row colIndex in
       setProperty obj (default [] (finalHeaders !! idx))
                   (if isFilled val then val else CNull))
    (imap (fun idx colIndex => (idx, colIndex)) activeColIndices)
    emptyObject.

Definition parseRows (sheetNames : list jsstring) (targetSheet : jsstring)
    (rawRows : list (list Cell)) : ParsedTable :=
  let headerRowIndex := headerRowIndex (scanHeader rawRows) in
  let rawHeaders := default [] (rawRows !! headerRowIndex) in
  let headers := headersOf rawHeaders in
  let dataRows := dataRowsOf rawRows headerRowIndex in
  let activeColIndices := activeColIndicesOf headers rawHeaders dataRows in
  let finalHeaders := finalHeadersOf headers activeColIndices in
  let columns := columnsOf finalHeaders activeColIndices dataRows in
  let rows := map (rowObject finalHeaders activeColIndices) dataRows in
  {| sheetNames := sheetNames;
     selectedSheet := targetSheet;
     rowCount := length rows;
     columns := columns;
     preview := take 10 rows;
     rows := rows |}.

(** [parseFile] from the workbook that [XLSX.read] returned on: an
    exception of [XLSX.read] itself, on bytes it cannot read, leaves
    [parseFile] before any of this runs and is not part of [Outcome]. *)
Definition parseFile (workbook : Workbook) (selectedSheet : option jsstring)
    : Outcome ParsedTable :=
  let sheetNames := SheetNames workbook in
  match sheetNames with
  | [] => Throw (js "The file contains no sheets")
  | first :: _ =>
      let targetSheet := targetSheetOf sheetNames first selectedSheet in
      let rawRows := default [] (Sheets workbook !! targetSheet) in
      match rawRows with
      | [] => Throw (js "The selected sheet is empty")
      | _ => Return (parseRows sheetNames targetSheet rawRows)
      end
  end.

(** ** Vocabulary of the statements *)

(** The classification of one value as the design document words it:
    the four predicates are tried in the order percentage, currency,
    plain number, date, and a value that matches none is unclassified. *)
Inductive ValueClass : Type :=
  PercentageValue | CurrencyValue | NumberValue | DateValue | Unclassified.

#[global] Instance ValueClass_eq_dec : EqDecision ValueClass.
Proof. solve_decision. Defined.

Definition classify (raw : Cell) : ValueClass :=
  let v := JsString.trim (toString raw) in
  if Regex.matches Patterns.percentage v then PercentageValue
  else if Regex.matches Patterns.currency v then CurrencyValue
  else if Regex.matches Patterns.number v then NumberValue
  else if instanceofDate raw || isLikelyDate v then DateValue
  else Unclassified.

(** How many of the values fall in class [k]. *)
Definition countOf (k : ValueClass) (values : list Cell) : nat :=
  length (filter (fun raw => classify raw = k) values).

(** How many distinct trimmed, lower-cased texts the values have. *)
Definition distinctTexts (values : list Cell) : nat :=
  length (remove_dups (map (fun v => toLowerCase (JsString.trim (toString v))) values)).

(** Null, or a string that is blank after trimming. *)
Definition blankText (c : Cell) : Prop :=
  c = CNull \/ exists s, c = CStr s /\ JsString.trim s = [].

(** The number of filled cells of row [i] (no row: no cell). *)
Definition filledIn (rawRows : list (list Cell)) (i : nat) : nat :=
  length (filter (fun cell => isFilled cell) (default [] (rawRows !! i))).

(** What holds after the first [n] turns of the loop. *)
Definition scanned (rawRows : list (list Cell)) (n : nat) (st : Scan) : Prop :=
  (n = 0 -> headerRowIndex st = 0 /\ maxNonEmpty st = 0)
  /\ (0 < n -> headerRowIndex st < n
               /\ maxNonEmpty st = filledIn rawRows (headerRowIndex st))
  /\ (forall j, j < n -> filledIn rawRows j <= maxNonEmpty st)
  /\ (forall j, j < headerRowIndex st -> filledIn rawRows j < maxNonEmpty st).

End Definitions.

Arguments Cell {host}.
Arguments Workbook {host}.
Arguments Column {host}.
Arguments ParsedTable {host}.
Arguments Return {A} a.
Arguments Throw {A} message.

End SheetParser.

(** ** suggestCharts *)

Module ChartSuggester.

(** A column as the caller sends it: the type is whatever string the
    request carries. *)
Record Column : Type := { name : jsstring; type : jsstring }.

Inductive ChartType : Type := line | area | bar | pie | stats.

Record Suggestion : Type := {
  id : jsstring;
  chartType : ChartType;
  title : jsstring;
  xColumn : option jsstring;
  yColumn : jsstring;
  description : jsstring
}.

Record Suggestions : Type := {
  charts : list Suggestion;
  statCards : list Suggestion
}.

(** [list.includes(s)] *)
Definition includes (l : list jsstring) (s : jsstring) : bool :=
  existsb (fun x => bool_decide (x = s)) l.

Definition isDateCol (c : Column) : bool := bool_decide (type c = js "Date").
Definition isNumericCol (c : Column) : bool :=
  includes [js "Number"; js "Currency"; js "Percentage"] (type c).
Definition isCategoryCol (c : Column) : bool := bool_decide (type c = js "Category").

Definition lineChart (dateCol numCol : Column) : Suggestion :=
  {| id := JsString.replaceWhiteSpaceRuns
             (js "line_" ++ name dateCol ++ js "_" ++ name numCol);
     chartType := line;
     title := name numCol ++ js " Over Time";
     xColumn := Some (name dateCol);
     yColumn := name numCol;
     description := js "Trend of " ++ name numCol ++ js " by " ++ name dateCol |}.

Definition areaChart (dateCol numCol : Column) : Suggestion :=
  {| id := JsString.replaceWhiteSpaceRuns
             (js "area_" ++ name dateCol ++ js "_" ++ name numCol);
     chartType := area;
     title := name numCol ++ js " Area Trend";
     xColumn := Some (name dateCol);
     yColumn := name numCol;
     description := js "Area chart of " ++ name numCol ++ js " over " ++ name dateCol |}.

Definition barChart (catCol numCol : Column) : Suggestion :=
  {| id := JsString.replaceWhiteSpaceRuns
             (js "bar_" ++ name catCol ++ js "_" ++ name numCol);
     chartType := bar;
     title := name numCol ++ js " by " ++ name catCol;
     xColumn := Some (name catCol);
     yColumn := name numCol;
     description := js "Compare " ++ name numCol ++ js " across " ++ name catCol
                    ++ js " categories" |}.

Definition pieChart (catCol numCol : Column) : Suggestion :=
  {| id := JsString.replaceWhiteSpaceRuns
             (js "pie_" ++ name catCol ++ js "_" ++ name numCol);
     chartType := pie;
     title := name numCol ++ js " Distribution by " ++ name catCol;
     xColumn := Some (name catCol);
     yColumn := name numCol;
     description := js "Proportion of " ++ name numCol ++ js " per " ++ name catCol |}.

Definition statCard (col : Column) : Suggestion :=
  {| id := JsString.replaceWhiteSpaceRuns (js "stats_" ++ name col);
     chartType := stats;
     title := name col ++ js " Summary";
     xColumn := None;
     yColumn := name col;
     description := js "Total, Average, Min, Max for " ++ name col |}.

(** [suggestions.push(x)] *)
Definition push (suggestions : list Suggestion) (x : Suggestion) : list Suggestion :=
  suggestions ++ [x].

(** A nested [for ... of] loop over [outer] and [numericCols] whose body
    is [body], threading the array being filled. *)
Definition forEachPair (outer numericCols : list Column)
    (body : list Suggestion -> Column -> Column -> list Suggestion)
    (suggestions : list Suggestion) : list Suggestion :=
  fold_left
    (fun acc outerCol => fold_left (fun acc' numCol => body acc' outerCol numCol)
                                   numericCols acc)
    outer suggestions.

Definition suggestCharts (columns : list Column) : Suggestions :=
  let suggestions := [] in
  let dateCols := filter (fun c => isDateCol c) columns in
  let numericCols := filter (fun c => isNumericCol c) columns in
  let categoryCols := filter (fun c => isCategoryCol c) columns in
  let suggestions :=
    forEachPair dateCols numericCols
      (fun acc dateCol numCol =>
         push (push acc (lineChart dateCol numCol)) (areaChart dateCol numCol))
      suggestions in
  let suggestions :=
    forEachPair categoryCols numericCols
      (fun acc catCol numCol => push acc (barChart catCol numCol))
      suggestions in
  let suggestions :=
    forEachPair categoryCols numericCols
      (fun acc catCol numCol => push acc (pieChart catCol numCol))
      suggestions in
  let statCards := map statCard numericCols in
  {| charts := suggestions; statCards := statCards |}.

(** The order the design document gives, written after its words: all
    line/area pairs (outer loop date, inner loop numeric), then all
    bar/pie pairs (outer loop category, inner loop numeric), then the
    stat cards. *)
Definition documentedOrder (columns : list Column) : list Suggestion :=
  let dateCols := filter (fun c => type c = js "Date") columns in
  let numericCols :=
    filter (fun c => type c ∈ [js "Number"; js "Currency"; js "Percentage"]) columns in
  let categoryCols := filter (fun c => type c = js "Category") columns in
  flat_map (fun d => flat_map (fun n => [lineChart d n; areaChart d n]) numericCols) dateCols
  ++ flat_map (fun c => flat_map (fun n => [barChart c n; pieChart c n]) numericCols)
              categoryCols
  ++ map statCard numericCols.

End ChartSuggester.


(** ** Vocabulary of further statements *)

Module ChartSuggesterTerms.
Import ChartSuggester.

(** The column names the uniqueness of ids asks for: no white space and
    no underscore. *)
Definition plainName (c : Column) : Prop :=
  Forall (fun u => JsString.isWhiteSpace u = false /\ u <> 95%N) (name c).

End ChartSuggesterTerms.

Module SheetParserTerms.
Import SheetParser.

Section WithHost.

Context `{host : Host}.

(** What a row object stores for a raw cell: the cell when it is filled,
    [null] otherwise. *)
Definition stored (val : Cell) : Cell := if isFilled val then val else CNull.

(** The writes of the [forEach] that builds a row object, in order: key
    and stored value for each active column. *)
Definition rowEntries (finalHeaders : list jsstring) (activeColIndices : list nat)
    (row : list Cell) : list (jsstring * Cell) :=
  imap (fun idx colIndex =>
          (default [] (finalHeaders !! idx), stored (cellAt row colIndex)))
       activeColIndices.

(** A string cell with its text trimmed; other cells as they are. *)
Definition trimmedCell (c : Cell) : Cell :=
  match c with
  | CStr s => CStr (JsString.trim s)
  | _ => c
  end.

End WithHost.

End SheetParserTerms.

(** Two ways to read off a pattern which characters its matches have. *)
Module RegexTerms.
Import Regex.

(** Every character class of the pattern lies within [q]. *)
Fixpoint within (q : N -> bool) (r : t) : Prop :=
  match r with
  | Void | Eps => True
  | Chars p => forall c, p c = true -> q c = true
  | Cat a b | Alt a b => within q a /\ within q b
  | Star a => within q a
  end.

(** Every match of the pattern goes through a character class that lies
    within [q]. *)
Fixpoint mustHave (q : N -> bool) (r : t) : Prop :=
  match r with
  | Void => True
  | Eps | Star _ => False
  | Chars p => forall c, p c = true -> q c = true
  | Cat a b => mustHave q a \/ mustHave q b
  | Alt a b => mustHave q a /\ mustHave q b
  end.

(** The characters of the value shapes. *)
Definition isPercentSign (c : N) : bool := (c =? 37)%N.
Definition isGlyph (c : N) : bool := existsb (N.eqb c) [36; 163; 8364; 165; 8377; 8360]%N.
Definition isDateSeparator (c : N) : bool := existsb (N.eqb c) [47; 45]%N.
Definition isAsciiLetter (c : N) : bool :=
  ((65 <=? c) && (c <=? 90) || (97 <=? c) && (c <=? 122))%N.

(** Digits, comma and dot: a plain number after its sign. *)
Definition plainNumberChar (c : N) : bool := (isDigit c || (c =? 44) || (c =? 46))%N.
(** With the sign. *)
Definition numberChar (c : N) : bool := (plainNumberChar c || (c =? 45))%N.
(** With the sign and the percent sign. *)
Definition percentageChar (c : N) : bool := (numberChar c || (c =? 37))%N.
(** What the four date patterns are written with. *)
Definition dateChar (c : N) : bool :=
  (isDigit c || isDateSeparator c || (c =? 44) || JsString.isWhiteSpace c
   || isAsciiLetter c)%N.

End RegexTerms.
(** ** A host for closed examples

    Numbers are integers, rendered in decimal; a date instant is carried
    as the text [Date.prototype.toString] gives for it; case folding is
    the ASCII one.  The examples below use text cells and [null] only. *)

Module Examples.
Import SheetParser.

#[export] Instance textHost : Host := {|
  Num := Z;
  DateInstant := jsstring;
  numberToString := JsString.ofZ;
  dateToString := fun s => s;
  toLowerCase := JsString.asciiLower
|}.

Definition text (s : string) : Cell := CStr (JsString.lit s).

(** A sheet whose only row after the header is [[null, "TOTAL", null, null]]. *)
Definition totalRow : list Cell := [CNull; text "TOTAL"; CNull; CNull].

Definition totalSheet : list (list Cell) :=
  [ [text "Item"; text "Q1"; text "Q2"; text "Q3"]; totalRow ].

(** A sheet with the same header text in two columns. *)
Definition twinHeaderSheet : list (list Cell) :=
  [ [text "Amount"; text "Amount"]; [text "1"; text "2"] ].

(** A header text that reads like the placeholder of the blank cell next
    to it. *)
Definition placeholderClashSheet : list (list Cell) :=
  [ [text "Column_2"; CNull; text "Kind"]; [text "a"; text "b"; CNull] ].

Definition workbookOf (rawRows : list (list Cell)) : Workbook :=
  {| SheetNames := [js "Sheet1"]; Sheets := {[ js "Sheet1" := rawRows ]} |}.

(** A title row above the header row, a section label and a blank row. *)
Definition budgetSheet : list (list Cell) :=
  [ [text "Household Budget"; CNull; CNull];
    [text "Date"; text "Amount"; text "Kind"];
    [text "INCOME"; CNull; CNull];
    [text "01/02/2024"; text "$1,800.00"; text "Salary"];
    [CNull; CNull; CNull];
    [text "03/02/2024"; CNull; text "Food"; text "stray"] ].

(** One category column and two numeric ones. *)
Definition oneCategoryTwoNumbers : list ChartSuggester.Column :=
  [ {| ChartSuggester.name := js "Kind"; ChartSuggester.type := js "Category" |};
    {| ChartSuggester.name := js "Paid"; ChartSuggester.type := js "Number" |};
    {| ChartSuggester.name := js "Due"; ChartSuggester.type := js "Currency" |} ].

(** The example of the design document. *)
Definition documentExample : list ChartSuggester.Column :=
  [ {| ChartSuggester.name := js "Date"; ChartSuggester.type := js "Date" |};
    {| ChartSuggester.name := js "Amount"; ChartSuggester.type := js "Currency" |};
    {| ChartSuggester.name := js "Category"; ChartSuggester.type := js "Category" |} ].

(** A header row with a blank cell above a column that has data. *)
Definition blankHeaderSheet : list (list Cell) :=
  [ [text "Date"; CNull; text "Kind"; text "Note"];
    [text "01/02/2024"; text "$5"; text "Food"; CNull] ].

(** Two sheets; the second is the one asked for. *)
Definition twoSheets : Workbook :=
  {| SheetNames := [js "Summary"; js "Details"];
     Sheets := {[ js "Summary" := budgetSheet; js "Details" := blankHeaderSheet ]} |}.

(** The value lists of the examples of the design document, and a mixed
    one. *)
Definition currencyValues : list Cell := [text "$450"; text "$1,200"; text "$510"].
Definition monthYearValues : list Cell := [text "Jan 2024"; text "Feb 2024"; text "Mar 2024"].
Definition mixedValues : list Cell := [text "12%"; text "n/a"; text "7.5%"; text "40%"].
Definition mixedValuesSwapped : list Cell := [text "n/a"; text "12%"; text "7.5%"; text "40%"].

(** A column whose type string is outside the enumeration, between two
    columns that are inside it. *)
Definition strangeColumn : ChartSuggester.Column :=
  {| ChartSuggester.name := js "Notes"; ChartSuggester.type := js "Money" |}.

End Examples.


(** ** Further sample inputs *)

Module MoreExamples.
Import SheetParser Examples.

(** A sheet that is only a header row, with a blank cell in it. *)
Definition headerOnlySheet : list (list Cell) :=
  [ [text "Date"; CNull; text " Amount "] ].

(** A sheet with rows but no filled cell. *)
Definition blankSheet : list (list Cell) :=
  [ [CNull; text "  "; CNull]; [CNull; CNull; CNull] ].

(** A sheet with a column named [__proto__]. *)
Definition protoSheet : list (list Cell) :=
  [ [text "__proto__"; text "Kind"; text "Note"];
    [text "x"; text "Food"; text "a"];
    [CNull; text "Rent"; text "b"] ].

(** A sheet with two columns of that name. *)
Definition protoTwinSheet : list (list Cell) :=
  [ [text "__proto__"; text "__proto__"; text "Kind"];
    [text "x"; text "y"; text "Food"];
    [CNull; text "y"; text "Rent"] ].

(** Twenty-one different labels. *)
Definition manyTexts : list Cell :=
  map (fun n => CStr (js "item" ++ JsString.ofNat n)) (seq 0 21).

(** [budgetSheet] parsed, and the steps of its parse. *)
Definition budgetTable : ParsedTable := parseRows [js "Sheet1"] (js "Sheet1") budgetSheet.
Definition budgetHeaderRow : list Cell :=
  default [] (budgetSheet !! headerRowIndex (scanHeader budgetSheet)).
Definition budgetDataRows : list (list Cell) :=
  dataRowsOf budgetSheet (headerRowIndex (scanHeader budgetSheet)).
Definition budgetActive : list nat :=
  activeColIndicesOf (headersOf budgetHeaderRow) budgetHeaderRow budgetDataRows.
Definition budgetNames : list jsstring :=
  finalHeadersOf (headersOf budgetHeaderRow) budgetActive.

(** The first retained row of [budgetSheet], and its row object. *)
Definition budgetFirstRow : list Cell :=
  [text "01/02/2024"; text "$1,800.00"; text "Salary"].
Definition budgetFirstObject : JsObject :=
  rowObject budgetNames budgetActive budgetFirstRow.

(** The second column of [budgetTable]. *)
Definition budgetAmountColumn : Column :=
  {| name := js "Amount"; type := Currency; sample := [text "$1,800.00"] |}.

(** The columns of the design document's example. *)
Definition dateColumn : ChartSuggester.Column :=
  {| ChartSuggester.name := js "Date"; ChartSuggester.type := js "Date" |}.
Definition amountColumn : ChartSuggester.Column :=
  {| ChartSuggester.name := js "Amount"; ChartSuggester.type := js "Currency" |}.
Definition categoryColumn : ChartSuggester.Column :=
  {| ChartSuggester.name := js "Category"; ChartSuggester.type := js "Category" |}.

(** The same columns with the first two exchanged. *)
Definition documentExampleSwapped : list ChartSuggester.Column :=
  [amountColumn; dateColumn; categoryColumn].

End MoreExamples.

(** * The derivative matcher decides the language of a pattern *)

Module RegexProps.
Import Regex.

Lemma nullable_spec (r : t) : nullable r = true <-> Lang r [].
Proof.
  induction r as [| |p|r IHr s IHs|r IHr s IHs|r IHr]; simpl.
  - split; [discriminate | inversion 1].
  - split; [intros _; constructor | reflexivity].
  - split; [discriminate | inversion 1].
  - rewrite andb_true_iff, IHr, IHs. split.
    + intros [Hr Hs]. apply (LangCat r s [] [] Hr Hs).
    + inversion 1 as [| |r' s' u v Hu Hv Eq1 Eq2| | | |]; subst.
      apply app_eq_nil in Eq2 as [-> ->]. by split.
  - rewrite orb_true_iff, IHr, IHs. split.
    + intros [H|H]; [by apply LangAltL | by apply LangAltR].
    + inversion 1; subst; [by left | by right].
  - split; [intros _; constructor | reflexivity].
Qed.

(** A non-empty match of [Star r] starts with a non-empty match of [r]. *)
Lemma star_cons (r : t) (c : N) (w : jsstring) :
  Lang (Star r) (c :: w) ->
  exists u v, w = u ++ v /\ Lang r (c :: u) /\ Lang (Star r) v.
Proof.
  intros H. remember (Star r) as sr eqn:Esr. remember (c :: w) as cw eqn:Ecw.
  revert Esr Ecw.
  induction H as [| | | | | |r' u v Hu _ Hv IHv]; intros Esr Ecw; try discriminate.
  injection Esr as ->.
  destruct u as [|c' u]; simpl in Ecw.
  - by apply IHv.
  - injection Ecw as -> <-. by exists u, v.
Qed.

Lemma deriv_spec (r : t) (c : N) (w : jsstring) :
  Lang (deriv c r) w <-> Lang r (c :: w).
Proof.
  revert w. induction r as [| |p|r IHr s IHs|r IHr s IHs|r IHr]; intros w; simpl.
  - split; inversion 1.
  - split; inversion 1.
  - destruct (p c) eqn:Hp; split.
    + inversion 1; subst. by constructor.
    + inversion 1; subst. constructor.
    + inversion 1.
    + inversion 1; subst. congruence.
  - assert (Hcat : Lang (Cat (deriv c r) s) w ->
                   Lang (Cat r s) (c :: w)).
    { inversion 1 as [| |r' s' u v Hu Hv| | | |]; subst.
      apply IHr in Hu. apply (LangCat r s (c :: u) v Hu Hv). }
    assert (Hinv : Lang (Cat r s) (c :: w) ->
                   Lang (Cat (deriv c r) s) w
                   \/ (Lang r [] /\ Lang s (c :: w))).
    { inversion 1 as [| |r' s' u v Hu Hv Eq1 Eq2| | | |]; subst.
      destruct u as [|c' u]; simpl in Eq2.
      - subst v. right. by split.
      - injection Eq2 as -> <-. left. constructor; [by apply IHr | done]. }
    destruct (nullable r) eqn:Hnull; split.
    + inversion 1; subst; [by apply Hcat|].
      apply nullable_spec in Hnull.
      apply (LangCat r s [] (c :: w) Hnull). by apply IHs.
    + intros H. destruct (Hinv H) as [H'|[_ H']].
      * by apply LangAltL.
      * apply LangAltR. by apply IHs.
    + apply Hcat.
    + intros H. destruct (Hinv H) as [H'|[Hn _]]; [done|].
      apply nullable_spec in Hn. congruence.
  - split.
    + inversion 1; subst; [apply LangAltL | apply LangAltR];
        first [by apply IHr | by apply IHs].
    + inversion 1; subst; [apply LangAltL | apply LangAltR];
        first [by apply IHr | by apply IHs].
  - split.
    + inversion 1 as [| |r' s' u v Hu Hv| | | |]; subst.
      apply IHr in Hu. apply (LangStarApp r (c :: u) v Hu Hv).
    + intros H. destruct (star_cons r c w H) as (u & v & -> & Hu & Hv).
      constructor; [by apply IHr | done].
Qed.

(** [/^r$/.test(s)] holds exactly for the strings of the language of [r]. *)
Lemma matches_spec (r : t) (w : jsstring) : matches r w = true <-> Lang r w.
Proof.
  revert r. induction w as [|c w IH]; intros r; simpl.
  - apply nullable_spec.
  - rewrite IH. apply deriv_spec.
Qed.

Lemma star_anyUnit (w : jsstring) : Lang (Star anyUnit) w.
Proof.
  induction w as [|c w IH]; [constructor|].
  apply (LangStarApp anyUnit [c] w); [by constructor | done].
Qed.

(** [/^r/.test(s)] holds exactly when a prefix of [s] is in the language
    of [r]. *)
Lemma matchesPrefix_spec (r : t) (w : jsstring) :
  matchesPrefix r w = true <-> exists u v, w = u ++ v /\ Lang r u.
Proof.
  unfold matchesPrefix. rewrite matches_spec. split.
  - inversion 1 as [| |r' s' u v Hu Hv| | | |]; subst. by exists u, v.
  - intros (u & v & -> & Hu). constructor; [done | apply star_anyUnit].
Qed.

End RegexProps.
(** * Properties of suggestCharts *)

Module ChartSuggesterProps.
Import ChartSuggester.

(** A loop body that only appends makes the nested loop a [flat_map]. *)
Lemma fold_left_appending {A B : Type} (f : B -> list A) (l : list B) (init : list A)
    (body : list A -> B -> list A) :
  (forall acc x, body acc x = acc ++ f x) ->
  fold_left body l init = init ++ flat_map f l.
Proof.
  intros Hbody. revert init.
  induction l as [|x l IH]; intros init; simpl.
  - by rewrite app_nil_r.
  - rewrite IH, Hbody. by rewrite <- app_assoc.
Qed.

Lemma forEachPair_flat_map (f : Column -> Column -> list Suggestion)
    (outer numericCols : list Column) (init : list Suggestion)
    (body : list Suggestion -> Column -> Column -> list Suggestion) :
  (forall acc o n, body acc o n = acc ++ f o n) ->
  forEachPair outer numericCols body init
  = init ++ flat_map (fun o => flat_map (f o) numericCols) outer.
Proof.
  intros Hbody. unfold forEachPair.
  apply fold_left_appending. intros acc o.
  apply fold_left_appending. intros acc' n. apply Hbody.
Qed.

Lemma length_flat_map_pairs {A B C : Type} (f : A -> B -> list C) (k : nat)
    (outer : list A) (inner : list B) :
  (forall a b, length (f a b) = k) ->
  length (flat_map (fun a => flat_map (f a) inner) outer)
  = length outer * length inner * k.
Proof.
  intros Hk.
  assert (Hin : forall a, length (flat_map (f a) inner) = length inner * k).
  { intros a. induction inner as [|b inner IH]; simpl; [done|].
    rewrite length_app, IH, Hk. lia. }
  induction outer as [|a outer IH]; simpl; [done|].
  rewrite length_app, IH, Hin. lia.
Qed.

Lemma includes_elem_of (l : list jsstring) (s : jsstring) :
  includes l s = true <-> s ∈ l.
Proof.
  unfold includes. rewrite existsb_exists. split.
  - intros (x & Hx & Heq). apply bool_decide_eq_true in Heq. subst.
    by apply list_elem_of_In.
  - intros Hs. exists s. split; [by apply list_elem_of_In|].
    by apply bool_decide_eq_true.
Qed.

(** The three partitions, with the tests of the source read as
    propositions. *)
Lemma dateCols_filter (columns : list Column) :
  filter (fun c => isDateCol c) columns = filter (fun c => type c = js "Date") columns.
Proof.
  apply list_filter_iff. intros c. unfold isDateCol.
  by rewrite bool_decide_spec.
Qed.

Lemma numericCols_filter (columns : list Column) :
  filter (fun c => isNumericCol c) columns
  = filter (fun c => type c ∈ [js "Number"; js "Currency"; js "Percentage"]) columns.
Proof.
  apply list_filter_iff. intros c. unfold isNumericCol.
  rewrite Is_true_true. apply includes_elem_of.
Qed.

Lemma categoryCols_filter (columns : list Column) :
  filter (fun c => isCategoryCol c) columns
  = filter (fun c => type c = js "Category") columns.
Proof.
  apply list_filter_iff. intros c. unfold isCategoryCol.
  by rewrite bool_decide_spec.
Qed.

Lemma charts_unfold (columns : list Column) :
  let dateCols := filter (fun c => isDateCol c) columns in
  let numericCols := filter (fun c => isNumericCol c) columns in
  let categoryCols := filter (fun c => isCategoryCol c) columns in
  charts (suggestCharts columns)
  = flat_map (fun d => flat_map (fun n => [lineChart d n; areaChart d n]) numericCols)
             dateCols
    ++ flat_map (fun c => flat_map (fun n => [barChart c n]) numericCols) categoryCols
    ++ flat_map (fun c => flat_map (fun n => [pieChart c n]) numericCols) categoryCols.
Proof.
  intros dateCols numericCols categoryCols.
  unfold suggestCharts; simpl.
  fold dateCols numericCols categoryCols.
  rewrite (forEachPair_flat_map (fun c n => [pieChart c n]))
    by (intros; reflexivity).
  rewrite (forEachPair_flat_map (fun c n => [barChart c n]))
    by (intros; reflexivity).
  rewrite (forEachPair_flat_map (fun d n => [lineChart d n; areaChart d n]))
    by (intros; unfold push; by rewrite <- app_assoc).
  simpl. by rewrite <- app_assoc.
Qed.

(** C2, as the code has it: the chart list is every line/area pair (outer
    loop over the date columns, inner over the numeric ones), then one bar
    for every (category, numeric) pair, then one pie for every (category,
    numeric) pair; the stat cards, one per numeric column in order, are
    the separate [statCards] list. *)
Theorem suggestCharts_order (columns : list Column) :
  let dateCols := filter (fun c => type c = js "Date") columns in
  let numericCols :=
    filter (fun c => type c ∈ [js "Number"; js "Currency"; js "Percentage"]) columns in
  let categoryCols := filter (fun c => type c = js "Category") columns in
  charts (suggestCharts columns)
  = flat_map (fun d => flat_map (fun n => [lineChart d n; areaChart d n]) numericCols)
             dateCols
    ++ flat_map (fun c => flat_map (fun n => [barChart c n]) numericCols) categoryCols
    ++ flat_map (fun c => flat_map (fun n => [pieChart c n]) numericCols) categoryCols
  /\ statCards (suggestCharts columns) = map statCard numericCols.
Proof.
  intros dateCols numericCols categoryCols.
  unfold dateCols, numericCols, categoryCols.
  rewrite <- dateCols_filter, <- numericCols_filter, <- categoryCols_filter.
  split; [apply charts_unfold | reflexivity].
Qed.

(** C2 as documented fails with one category column and two numeric
    ones: the code emits bar, bar, pie, pie where the documented order is
    bar, pie, bar, pie. *)
Lemma interleaved_order_refuted :
  let r := suggestCharts Examples.oneCategoryTwoNumbers in
  map chartType (charts r) = [bar; bar; pie; pie]
  /\ map chartType (documentedOrder Examples.oneCategoryTwoNumbers)
     = [bar; pie; bar; pie; stats; stats]
  /\ charts r ++ statCards r <> documentedOrder Examples.oneCategoryTwoNumbers.
Proof.
  split; [reflexivity|]. split; [reflexivity|].
  intros H. apply (f_equal (map chartType)) in H. vm_compute in H. discriminate.
Qed.

(** With at most one (category, numeric) pair the two orders agree, as in
    the example of the design document. *)
Lemma suggestCharts_document_example :
  let r := suggestCharts Examples.documentExample in
  charts r ++ statCards r = documentedOrder Examples.documentExample
  /\ map chartType (charts r ++ statCards r) = [line; area; bar; pie; stats].
Proof. split; reflexivity. Qed.

(** C5: with d date columns, n numeric columns (Number, Currency or
    Percentage) and c category columns, charts and stat cards together
    are exactly 2*d*n + 2*c*n + n suggestions. *)
Theorem suggestCharts_size (columns : list Column) :
  let d := length (filter (fun c => type c = js "Date") columns) in
  let n := length (filter (fun c => type c ∈ [js "Number"; js "Currency"; js "Percentage"])
                          columns) in
  let c := length (filter (fun c => type c = js "Category") columns) in
  length (charts (suggestCharts columns)) + length (statCards (suggestCharts columns))
  = 2 * d * n + 2 * c * n + n.
Proof.
  intros d n c. unfold d, n, c.
  rewrite <- dateCols_filter, <- numericCols_filter, <- categoryCols_filter.
  rewrite charts_unfold. simpl.
  rewrite !length_app.
  rewrite (length_flat_map_pairs (fun d n => [lineChart d n; areaChart d n]) 2)
    by reflexivity.
  rewrite (length_flat_map_pairs (fun c n => [barChart c n]) 1) by reflexivity.
  rewrite (length_flat_map_pairs (fun c n => [pieChart c n]) 1) by reflexivity.
  rewrite length_map. lia.
Qed.

(** C6: [suggestCharts] is a total function of the column list, it gives
    the empty result on the empty list, and a column whose type string is
    outside the enumeration Date, Number, Currency, Percentage, Category,
    Text is in none of the three partitions and can be deleted from the
    list without changing the result. *)
Theorem suggestCharts_ignores_unknown_types (before after : list Column) (col : Column) :
  type col ∉ [js "Date"; js "Number"; js "Currency"; js "Percentage";
              js "Category"; js "Text"] ->
  (exists r, suggestCharts (before ++ col :: after) = r)
  /\ suggestCharts [] = {| charts := []; statCards := [] |}
  /\ isDateCol col = false /\ isNumericCol col = false /\ isCategoryCol col = false
  /\ suggestCharts (before ++ col :: after) = suggestCharts (before ++ after).
Proof.
  intros Hout.
  assert (Hd : isDateCol col = false).
  { unfold isDateCol. apply bool_decide_eq_false. intros E. apply Hout.
    rewrite E. apply list_elem_of_here. }
  assert (Hn : isNumericCol col = false).
  { unfold isNumericCol. apply not_true_is_false. intros E.
    apply includes_elem_of in E. apply Hout. revert E.
    rewrite !elem_of_cons. tauto. }
  assert (Hc : isCategoryCol col = false).
  { unfold isCategoryCol. apply bool_decide_eq_false. intros E. apply Hout.
    rewrite E. do 4 apply list_elem_of_further. apply list_elem_of_here. }
  split; [by eexists|]. split; [reflexivity|].
  repeat (split; [assumption|]).
  unfold suggestCharts.
  rewrite !filter_app, !filter_cons, Hd, Hn, Hc. reflexivity.
Qed.

Lemma suggestCharts_ignores_unknown_types_witness :
  suggestCharts (Examples.documentExample ++ Examples.strangeColumn :: Examples.oneCategoryTwoNumbers)
  = suggestCharts (Examples.documentExample ++ Examples.oneCategoryTwoNumbers).
Proof.
  apply (suggestCharts_ignores_unknown_types
           Examples.documentExample Examples.oneCategoryTwoNumbers Examples.strangeColumn).
  vm_compute. intros H. repeat (apply elem_of_cons in H as [H|H]; [discriminate H|]).
  by apply elem_of_nil in H.
Defined.

End ChartSuggesterProps.

(** * Properties of the sheet parser *)

Module SheetParserProps.
Import SheetParser.

Section WithHost.

Context `{host : Host}.

(** ** Cells *)

Lemma isFilled_spec (c : Cell) :
  isFilled c = true <-> c <> CNull /\ JsString.trim (toString c) <> [].
Proof.
  unfold isFilled. rewrite andb_true_iff. split.
  - intros [Hn Ht]. split.
    + intros ->. discriminate.
    + intros E. rewrite E in Ht. discriminate.
  - intros [Hn Ht]. split.
    + destruct c; try reflexivity. congruence.
    + destruct (JsString.trim (toString c)); [congruence | reflexivity].
Qed.

(** ** The header scan *)

Lemma scanned_start (rawRows : list (list Cell)) :
  scanned rawRows 0 {| headerRowIndex := 0; maxNonEmpty := 0 |}.
Proof. repeat split; simpl; intros; lia. Qed.

Lemma scanned_step (rawRows : list (list Cell)) (n : nat) (st : Scan) :
  scanned rawRows n st -> scanned rawRows (S n) (scanRow rawRows st n).
Proof.
  intros (H0 & Hpos & Hle & Hlt).
  unfold scanRow. fold (filledIn rawRows n).
  destruct (Nat.ltb_spec (maxNonEmpty st) (filledIn rawRows n)) as [Hnew|Hold].
  - split; [intros; lia|]. split; [simpl; intros; split; [lia | reflexivity]|].
    split; simpl.
    + intros j Hj. destruct (decide (j = n)) as [->|Hne]; [lia|].
      specialize (Hle j). lia.
    + intros j Hj. specialize (Hle j). lia.
  - split; [intros; lia|]. split; [|split].
    + intros _. destruct n as [|n].
      * destruct H0 as [E0 Em]; [reflexivity|]. rewrite E0. split; [lia|].
        rewrite Em in *. lia.
      * destruct Hpos as [Hh Hm]; [lia|]. split; [lia | exact Hm].
    + intros j Hj. destruct (decide (j = n)) as [->|Hne]; [lia|].
      apply Hle. lia.
    + exact Hlt.
Qed.

Lemma scanned_loop (rawRows : list (list Cell)) (n : nat) :
  scanned rawRows n
    (fold_left (scanRow rawRows) (seq 0 n) {| headerRowIndex := 0; maxNonEmpty := 0 |}).
Proof.
  induction n as [|n IH].
  - apply scanned_start.
  - rewrite seq_S, fold_left_app. simpl. by apply scanned_step.
Qed.

(** C4: for a grid with at least one row the header row index lies in
    the scan window of the first min(10, rowCount) rows, no row of the
    window has more filled cells than the header row, and every earlier
    row has strictly fewer: the header row is the first row of the window
    that reaches the maximum. *)
Theorem headerRowIndex_first_maximum (rawRows : list (list Cell)) :
  rawRows <> [] ->
  let h := headerRowIndex (scanHeader rawRows) in
  let window := min 10 (length rawRows) in
  h < window
  /\ (forall j, j < window -> filledIn rawRows j <= filledIn rawRows h)
  /\ (forall j, j < h -> filledIn rawRows j < filledIn rawRows h).
Proof.
  intros Hne h window.
  assert (Hw : 0 < window).
  { unfold window. destruct rawRows; [congruence | simpl; lia]. }
  destruct (scanned_loop rawRows window) as (_ & Hpos & Hle & Hlt).
  destruct (Hpos Hw) as [Hh Hmax].
  fold (scanHeader rawRows) in Hh, Hmax, Hle, Hlt. fold h in Hh, Hmax, Hle, Hlt.
  rewrite Hmax in Hle, Hlt. auto.
Qed.

(** ** The row filter *)

(** A row with exactly one filled cell is kept exactly when its first
    cell passes the looks-like-data test. *)
Lemma keepRow_lone_cell (row : list Cell) :
  length (filter (fun cell => isFilled cell) row) = 1 ->
  keepRow row = looksLikeData row.
Proof.
  intros H. unfold keepRow. rewrite H. simpl.
  by destruct (looksLikeData row).
Qed.

(** When the lone filled cell is not the first one, the first cell is
    null or blank, the test sees the empty string and the row is dropped. *)
Lemma keepRow_lone_cell_elsewhere (row : list Cell) :
  length (filter (fun cell => isFilled cell) row) = 1 ->
  blankText (cellAt row 0) ->
  keepRow row = false.
Proof.
  intros H Hblank. rewrite (keepRow_lone_cell row H).
  unfold looksLikeData, firstOrEmpty.
  destruct Hblank as [-> | (s & -> & Hs)]; simpl.
  - reflexivity.
  - rewrite Hs. reflexivity.
Qed.

(** ** inferColumnType *)

Lemma countOf_cons (k : ValueClass) (raw : Cell) (values : list Cell) :
  countOf k (raw :: values)
  = (if decide (classify raw = k) then 1 else 0) + countOf k values.
Proof.
  unfold countOf. rewrite filter_cons.
  by destruct (decide (classify raw = k)).
Qed.

Lemma fold_countValue (values : list Cell) (k : Counters) :
  fold_left countValue values k
  = {| dateCount := dateCount k + countOf DateValue values;
       numberCount := numberCount k + countOf NumberValue values;
       currencyCount := currencyCount k + countOf CurrencyValue values;
       percentageCount := percentageCount k + countOf PercentageValue values |}.
Proof.
  revert k. induction values as [|raw values IH]; intros k.
  - destruct k; simpl. unfold countOf; simpl. f_equal; lia.
  - simpl. rewrite IH, !countOf_cons.
    unfold countValue, classify.
    destruct (Regex.matches Patterns.percentage _); [simpl; f_equal; lia|].
    destruct (Regex.matches Patterns.currency _); [simpl; f_equal; lia|].
    destruct (Regex.matches Patterns.number _); [simpl; f_equal; lia|].
    destruct (instanceofDate raw || isLikelyDate _); simpl; f_equal; lia.
Qed.

Lemma countValues_spec (values : list Cell) :
  countValues values
  = {| dateCount := countOf DateValue values;
       numberCount := countOf NumberValue values;
       currencyCount := countOf CurrencyValue values;
       percentageCount := countOf PercentageValue values |}.
Proof. unfold countValues. by rewrite fold_countValue. Qed.

(** The quotient test, without the quotient. *)
Lemma reaches_spec (count total : nat) :
  0 < total -> reaches count total = true <-> 6 * total <= 10 * count.
Proof.
  intros Hpos. unfold reaches, threshold.
  rewrite Qle_bool_iff. unfold Qle, Qdiv, Qmult, Qinv, inject_Z.
  destruct (Z.of_nat total) as [|p|p] eqn:E; try lia.
  cbn [Qnum Qden]. rewrite Pos.mul_1_l. lia.
Qed.

Lemma uniqueKeys_size (values : list Cell) :
  size (uniqueKeys values) = distinctTexts values.
Proof.
  unfold uniqueKeys, distinctTexts.
  set (keys := map _ values).
  rewrite <- (size_list_to_set (C := gset jsstring) (remove_dups keys))
    by apply NoDup_remove_dups.
  f_equal. apply set_eq. intros x.
  by rewrite !elem_of_list_to_set, elem_of_remove_dups.
Qed.

Lemma inferColumnType_unfold (raw : Cell) (rest : list Cell) :
  let values := raw :: rest in
  let k := countValues values in
  inferColumnType values
  = if reaches (percentageCount k) (length values) then Percentage
    else if reaches (currencyCount k) (length values) then Currency
    else if reaches (dateCount k) (length values) then Date
    else if reaches (numberCount k + currencyCount k) (length values) then Number
    else if bool_decide (size (uniqueKeys values) <= 20) then Category
    else Text.
Proof. reflexivity. Qed.

Lemma reaches_decide (count total : nat) :
  0 < total ->
  reaches count total = bool_decide (6 * total <= 10 * count).
Proof.
  intros Hpos. apply eq_true_iff_eq.
  rewrite reaches_spec by done. by rewrite bool_decide_eq_true.
Qed.

(** C3: for a non-empty list of values, with [total] its length and the
    values classified one by one, the type is Percentage when the
    percentage share is at least 0.6, else Currency when the currency
    share is, else Date when the date share is, else Number when the
    number and currency shares together are, each share being
    count/total and [count/total >= 0.6] written [6 * total <= 10 *
    count]; when none is, it is Category for at most 20 distinct
    trimmed, lower-cased texts and Text otherwise. *)
Theorem inferColumnType_thresholds (values : list Cell) :
  values <> [] ->
  let total := length values in
  let share k := bool_decide (6 * total <= 10 * k) in
  inferColumnType values
  = if share (countOf PercentageValue values) then Percentage
    else if share (countOf CurrencyValue values) then Currency
    else if share (countOf DateValue values) then Date
    else if share (countOf NumberValue values + countOf CurrencyValue values) then Number
    else if bool_decide (distinctTexts values <= 20) then Category
    else Text.
Proof.
  intros Hne total share.
  destruct values as [|raw rest]; [congruence|].
  rewrite inferColumnType_unfold. cbv zeta.
  rewrite countValues_spec, uniqueKeys_size. cbn [dateCount numberCount currencyCount percentageCount].
  assert (Hpos : 0 < length (raw :: rest)) by (simpl; lia).
  rewrite !reaches_decide by exact Hpos. reflexivity.
Qed.

(** C7: reordering the values does not change the inferred type. *)
Theorem inferColumnType_permutation (values values' : list Cell) :
  values ≡ₚ values' -> inferColumnType values = inferColumnType values'.
Proof.
  intros Hperm.
  destruct values as [|raw rest].
  { apply Permutation_nil_l in Hperm. by subst. }
  destruct values' as [|raw' rest'].
  { symmetry in Hperm. by apply Permutation_nil_cons in Hperm. }
  rewrite !inferColumnType_unfold. cbv zeta.
  rewrite !countValues_spec. cbn [dateCount numberCount currencyCount percentageCount].
  assert (Hcount : forall k, countOf k (raw :: rest) = countOf k (raw' :: rest')).
  { intros k. unfold countOf. by rewrite Hperm. }
  assert (Hkeys : uniqueKeys (raw :: rest) = uniqueKeys (raw' :: rest')).
  { unfold uniqueKeys. apply list_to_set_perm_L. by apply Permutation_map. }
  rewrite !Hcount, Hkeys, (Permutation_length Hperm). reflexivity.
Qed.

(** ** Header names *)

Lemma lit_inj (s s' : string) : JsString.lit s = JsString.lit s' -> s = s'.
Proof.
  revert s'. induction s as [|a s IH]; intros [|a' s'] E; simpl in E;
    try discriminate; [reflexivity|].
  injection E as Ea Es. f_equal; [|by apply IH].
  rewrite <- (ascii_N_embedding a), <- (ascii_N_embedding a'). by rewrite Ea.
Qed.

Lemma ofNat_inj (n m : nat) : JsString.ofNat n = JsString.ofNat m -> n = m.
Proof.
  unfold JsString.ofNat. intros E%lit_inj.
  apply DecimalNat.Unsigned.to_uint_inj.
  assert (Some (Nat.to_uint n) = Some (Nat.to_uint m)) as [= ->]; [|reflexivity].
  by rewrite <- !NilEmpty.usu, E.
Qed.

(** The name of header cell [i]: its trimmed text when the cell is
    filled, the placeholder otherwise. *)
Lemma headerName_cases (i : nat) (h : Cell) :
  headerName i h
  = if isFilled h then JsString.trim (toString h)
    else js "Column_" ++ JsString.ofNat (i + 1).
Proof.
  unfold headerName, isFilled.
  destruct (notNull h); [|reflexivity]. simpl.
  by destruct (JsString.trim (toString h)).
Qed.

Lemma placeholder_inj (i j : nat) :
  js "Column_" ++ JsString.ofNat (i + 1) = js "Column_" ++ JsString.ofNat (j + 1) ->
  i = j.
Proof. intros E%app_inv_head%ofNat_inj. lia. Qed.

Lemma filter_fmap_NoDup_lookup {A B : Type} (f : A -> B) (P : A -> bool)
    (l : list A) (i j : nat) (a b : A) :
  NoDup (map f (filter (fun x => P x) l)) ->
  l !! i = Some a -> l !! j = Some b ->
  P a = true -> P b = true -> f a = f b -> i = j.
Proof.
  revert i j. induction l as [|x l IH]; intros i j Hnd Hi Hj Pa Pb Hf.
  { by rewrite lookup_nil in Hi. }
  assert (Hin : forall k c, l !! k = Some c -> P c = true ->
                            f c ∈ map f (filter (fun x => P x) l)).
  { intros k c Hk Pc. apply list_elem_of_fmap. exists c. split; [done|].
    apply list_elem_of_filter. split; [by rewrite Pc|].
    by eapply list_elem_of_lookup_2. }
  rewrite filter_cons in Hnd.
  destruct i as [|i], j as [|j]; simpl in Hi, Hj.
  - reflexivity.
  - injection Hi as ->. rewrite Pa in Hnd. simpl in Hnd.
    apply NoDup_cons in Hnd as [Hnotin _]. exfalso. apply Hnotin.
    rewrite Hf. by eapply Hin.
  - injection Hj as ->. rewrite Pb in Hnd. simpl in Hnd.
    apply NoDup_cons in Hnd as [Hnotin _]. exfalso. apply Hnotin.
    rewrite <- Hf. by eapply Hin.
  - f_equal. apply IH; try done.
    destruct (P x); simpl in Hnd; [by apply NoDup_cons in Hnd as [_ ?] | done].
Qed.

Lemma headersOf_NoDup (rawHeaders : list Cell) :
  let texts := map (fun h => JsString.trim (toString h))
                   (filter (fun h => isFilled h) rawHeaders) in
  NoDup texts ->
  (forall i h, rawHeaders !! i = Some h -> isFilled h = false ->
               js "Column_" ++ JsString.ofNat (i + 1) ∉ texts) ->
  NoDup (headersOf rawHeaders).
Proof.
  intros texts Hnd Hplace. apply NoDup_alt. intros i j x Hi Hj.
  unfold headersOf in Hi, Hj.
  rewrite list_lookup_imap in Hi, Hj.
  destruct (rawHeaders !! i) as [a|] eqn:Ea; [|discriminate].
  destruct (rawHeaders !! j) as [b|] eqn:Eb; [|discriminate].
  simpl in Hi, Hj. injection Hi as Hi. injection Hj as Hj.
  rewrite headerName_cases in Hi, Hj.
  assert (Htext : forall k c, rawHeaders !! k = Some c -> isFilled c = true ->
                              JsString.trim (toString c) ∈ texts).
  { intros k c Hk Hc. apply list_elem_of_fmap. exists c. split; [done|].
    apply list_elem_of_filter. split; [by rewrite Hc|].
    by eapply list_elem_of_lookup_2. }
  destruct (isFilled a) eqn:Fa, (isFilled b) eqn:Fb.
  - eapply (filter_fmap_NoDup_lookup _ isFilled); eauto. congruence.
  - exfalso. apply (Hplace j b Eb Fb). rewrite Hj, <- Hi. by eapply Htext.
  - exfalso. apply (Hplace i a Ea Fa). rewrite Hi, <- Hj. by eapply Htext.
  - apply placeholder_inj. congruence.
Qed.

Lemma activeColIndicesOf_seq (headers : list jsstring) (rawHeaders : list Cell)
    (dataRows : list (list Cell)) :
  activeColIndicesOf headers rawHeaders dataRows
  = filter (fun i => isActive rawHeaders dataRows i) (seq 0 (length headers)).
Proof.
  unfold activeColIndicesOf. f_equal.
  rewrite (imap_seq_0 headers (fun i => i)). apply list_fmap_id.
Qed.

Lemma activeColIndicesOf_bound (headers : list jsstring) (rawHeaders : list Cell)
    (dataRows : list (list Cell)) (i : nat) :
  i ∈ activeColIndicesOf headers rawHeaders dataRows -> i < length headers.
Proof.
  rewrite activeColIndicesOf_seq. intros [_ Hi]%list_elem_of_filter.
  apply elem_of_seq in Hi. lia.
Qed.

Lemma activeColIndicesOf_NoDup (headers : list jsstring) (rawHeaders : list Cell)
    (dataRows : list (list Cell)) :
  NoDup (activeColIndicesOf headers rawHeaders dataRows).
Proof. rewrite activeColIndicesOf_seq. apply NoDup_filter, NoDup_seq. Qed.

Lemma finalHeadersOf_NoDup (headers : list jsstring) (rawHeaders : list Cell)
    (dataRows : list (list Cell)) :
  NoDup headers ->
  NoDup (finalHeadersOf headers (activeColIndicesOf headers rawHeaders dataRows)).
Proof.
  intros Hnd. unfold finalHeadersOf.
  apply NoDup_fmap_2_strong; [|apply activeColIndicesOf_NoDup].
  intros i j Hi%activeColIndicesOf_bound Hj%activeColIndicesOf_bound E.
  destruct (lookup_lt_is_Some_2 headers i Hi) as [x Hx].
  destruct (lookup_lt_is_Some_2 headers j Hj) as [y Hy].
  rewrite Hx, Hy in E. simpl in E. subst y.
  by eapply NoDup_lookup.
Qed.

Lemma columnsOf_names (finalHeaders : list jsstring) (activeColIndices : list nat)
    (dataRows : list (list Cell)) :
  map name (columnsOf finalHeaders activeColIndices dataRows) = finalHeaders.
Proof.
  unfold columnsOf.
  change (map name ?l) with (name <$> l).
  rewrite fmap_imap. simpl.
  rewrite (imap_ext _ (fun _ x => x)) by reflexivity.
  rewrite (imap_const (fun x : jsstring => x)). apply list_fmap_id.
Qed.

Lemma parseFile_Return (workbook : Workbook) (selectedSheet0 : option jsstring)
    (t : ParsedTable) :
  parseFile workbook selectedSheet0 = Return t ->
  let rawRows := default [] (Sheets workbook !! selectedSheet t) in
  rawRows <> [] /\ t = parseRows (SheetNames workbook) (selectedSheet t) rawRows.
Proof.
  unfold parseFile. destruct (SheetNames workbook) as [|first rest]; [discriminate|].
  set (target := targetSheetOf _ _ _).
  destruct (default [] (Sheets workbook !! target)) as [|r rs] eqn:E; [discriminate|].
  intros [= <-]. simpl. rewrite E. split; [discriminate | reflexivity].
Qed.

(** The column names are the header names at the active positions. *)
Lemma parseRows_names (sheetNames0 : list jsstring) (targetSheet : jsstring)
    (rawRows : list (list Cell)) :
  let h := headerRowIndex (scanHeader rawRows) in
  let rawHeaders := default [] (rawRows !! h) in
  let headers := headersOf rawHeaders in
  map name (columns (parseRows sheetNames0 targetSheet rawRows))
  = finalHeadersOf headers
      (activeColIndicesOf headers rawHeaders (dataRowsOf rawRows h)).
Proof. intros h rawHeaders headers. unfold parseRows. simpl. apply columnsOf_names. Qed.

Lemma isActive_spec (rawHeaders : list Cell) (dataRows : list (list Cell)) (i : nat) :
  isActive rawHeaders dataRows i
  <-> isFilled (cellAt rawHeaders i) = true
      \/ Exists (fun row => isFilled (cellAt row i) = true) dataRows.
Proof.
  unfold isActive. rewrite orb_True, !Is_true_true.
  apply or_iff_compat_l.
  induction dataRows as [|row dataRows IH]; simpl.
  - split; [discriminate|]. by intros H%Exists_nil.
  - rewrite Exists_cons, orb_true_iff. by rewrite IH.
Qed.

(** The column names position by position over the header row: for each
    position that has a filled header cell or a filled cell in a
    retained row, in increasing order, the trimmed text of the header
    cell when it is filled and the placeholder otherwise. *)
Lemma parseRows_names_by_position (sheetNames0 : list jsstring) (targetSheet : jsstring)
    (rawRows : list (list Cell)) :
  let h := headerRowIndex (scanHeader rawRows) in
  let rawHeaders := default [] (rawRows !! h) in
  let dataRows := dataRowsOf rawRows h in
  map name (columns (parseRows sheetNames0 targetSheet rawRows))
  = map (fun i => let c := cellAt rawHeaders i in
                  if isFilled c then JsString.trim (toString c)
                  else js "Column_" ++ JsString.ofNat (i + 1))
        (filter (fun i => isFilled (cellAt rawHeaders i) = true
                          \/ Exists (fun row => isFilled (cellAt row i) = true) dataRows)
                (seq 0 (length rawHeaders))).
Proof.
  intros h rawHeaders dataRows. rewrite parseRows_names.
  fold h rawHeaders dataRows.
  rewrite activeColIndicesOf_seq. unfold finalHeadersOf, headersOf.
  rewrite length_imap.
  rewrite (list_filter_iff _
             (fun i => isFilled (cellAt rawHeaders i) = true
                       \/ Exists (fun row => isFilled (cellAt row i) = true) dataRows))
    by apply isActive_spec.
  change (map ?f ?l) with (f <$> l).
  apply list_fmap_ext. intros k i Hk.
  apply list_elem_of_lookup_2, list_elem_of_filter in Hk as [_ Hi].
  apply elem_of_seq in Hi.
  destruct (lookup_lt_is_Some_2 rawHeaders i) as [c Hc]; [lia|].
  rewrite list_lookup_imap. unfold cellAt. rewrite Hc. simpl.
  apply headerName_cases.
Qed.

(** C8, as the code has it: the parser does not rename.  The column
    names are, position by position over the header row and in
    left-to-right order, the names of the active columns: the trimmed
    text of a filled header cell, the placeholder [Column_<i+1>] of a
    blank one, for every position [i] that has a filled header cell or
    a filled cell in a retained row.  They are pairwise distinct when
    the filled cells of the header row have pairwise distinct trimmed
    texts and none of these texts is the placeholder of a blank header
    cell. *)
Theorem column_names_distinct (workbook : Workbook) (requested : option jsstring)
    (t : ParsedTable) :
  parseFile workbook requested = Return t ->
  let rawRows := default [] (Sheets workbook !! selectedSheet t) in
  let rawHeaders := default [] (rawRows !! headerRowIndex (scanHeader rawRows)) in
  let dataRows := dataRowsOf rawRows (headerRowIndex (scanHeader rawRows)) in
  let texts := map (fun h => JsString.trim (toString h))
                   (filter (fun h => isFilled h) rawHeaders) in
  map name (columns t)
  = map (fun i => let c := cellAt rawHeaders i in
                  if isFilled c then JsString.trim (toString c)
                  else js "Column_" ++ JsString.ofNat (i + 1))
        (filter (fun i => isFilled (cellAt rawHeaders i) = true
                          \/ Exists (fun row => isFilled (cellAt row i) = true) dataRows)
                (seq 0 (length rawHeaders)))
  /\ (NoDup texts ->
      (forall i h, rawHeaders !! i = Some h -> isFilled h = false ->
                   js "Column_" ++ JsString.ofNat (i + 1) ∉ texts) ->
      NoDup (map name (columns t))).
Proof.
  intros Hparse rawRows rawHeaders dataRows texts.
  destruct (parseFile_Return _ _ _ Hparse) as [_ ->]. split.
  - apply parseRows_names_by_position.
  - intros Hnd Hplace. rewrite parseRows_names.
    apply finalHeadersOf_NoDup. by apply headersOf_NoDup.
Qed.

(** ** Sheet selection *)

(** C9: with at least one sheet, a requested name that is among the
    sheet names is the sheet parsed; with no request ([null], or the
    empty string, which the code takes for no request as the route
    does), and with a requested name that is not among the sheet names,
    the first sheet is parsed, so that an unknown name gives exactly the
    outcome of no request and no error of its own. *)
Theorem parseFile_sheet_selection (workbook : Workbook) (requested : option jsstring)
    (first : jsstring) (rest : list jsstring) :
  SheetNames workbook = first :: rest ->
  let parseSheet sheet :=
    match default [] (Sheets workbook !! sheet) with
    | [] => Throw (js "The selected sheet is empty")
    | rawRows => Return (parseRows (SheetNames workbook) sheet rawRows)
    end in
  (forall s, requested = Some s -> s <> [] -> s ∈ SheetNames workbook ->
             parseFile workbook requested = parseSheet s)
  /\ (requested = None \/ requested = Some [] ->
      parseFile workbook requested = parseSheet first)
  /\ (forall s, requested = Some s -> s ∉ SheetNames workbook ->
                parseFile workbook requested = parseSheet first
                /\ parseFile workbook requested = parseFile workbook None).
Proof.
  intros Hnames parseSheet.
  assert (Hparse : parseFile workbook requested
                   = parseSheet (targetSheetOf (SheetNames workbook) first requested)).
  { unfold parseFile, parseSheet. rewrite Hnames. rewrite <- Hnames.
    by destruct (default [] _). }
  assert (Hnone : parseFile workbook None = parseSheet first).
  { unfold parseFile, parseSheet. rewrite Hnames. rewrite <- Hnames. simpl.
    by destruct (default [] _). }
  split; [|split].
  - intros s -> Hs Hin. rewrite Hparse. unfold targetSheetOf.
    rewrite bool_decide_eq_true_2 by done. by destruct s.
  - intros [-> | ->]; rewrite Hparse; reflexivity.
  - intros s -> Hnotin. rewrite Hnone, Hparse. unfold targetSheetOf.
    rewrite bool_decide_eq_false_2 by done. by rewrite andb_false_r.
Qed.

(** ** Columns beyond the header row *)

Lemma cellAt_take (row : list Cell) (n i : nat) :
  i < n -> cellAt (take n row) i = cellAt row i.
Proof. intros Hi. unfold cellAt. by rewrite lookup_take_lt. Qed.

Lemma columnValues_take (dataRows : list (list Cell)) (n i : nat) :
  i < n -> columnValues (map (take n) dataRows) i = columnValues dataRows i.
Proof.
  intros Hi. unfold columnValues. f_equal.
  rewrite map_map. apply map_ext. intros row. by apply cellAt_take.
Qed.

Lemma isActive_take (rawHeaders : list Cell) (dataRows : list (list Cell)) (n i : nat) :
  i < n -> isActive rawHeaders (map (take n) dataRows) i = isActive rawHeaders dataRows i.
Proof.
  intros Hi. unfold isActive. f_equal.
  induction dataRows as [|row dataRows IH]; simpl; [reflexivity|].
  by rewrite IH, cellAt_take.
Qed.

Lemma fold_left_ext_elem {A B : Type} (f g : A -> B -> A) (l : list B) (a : A) :
  (forall acc x, x ∈ l -> f acc x = g acc x) -> fold_left f l a = fold_left g l a.
Proof.
  revert a. induction l as [|x l IH]; intros a Hfg; simpl; [reflexivity|].
  rewrite Hfg by apply list_elem_of_here.
  apply IH. intros acc y Hy. apply Hfg. by apply list_elem_of_further.
Qed.

Lemma rowObject_ext (finalHeaders : list jsstring) (activeColIndices : list nat)
    (row row' : list Cell) :
  (forall i, i ∈ activeColIndices -> cellAt row i = cellAt row' i) ->
  rowObject finalHeaders activeColIndices row
  = rowObject finalHeaders activeColIndices row'.
Proof.
  intros Hsame. unfold rowObject. apply fold_left_ext_elem.
  intros obj [idx colIndex] Hin.
  apply list_elem_of_lookup in Hin as [k Hk].
  rewrite list_lookup_imap in Hk.
  destruct (activeColIndices !! k) as [c|] eqn:Ec; [|discriminate].
  simpl in Hk. injection Hk as <- <-.
  rewrite (Hsame c) by (by eapply list_elem_of_lookup_2). reflexivity.
Qed.

Lemma columnsOf_ext (finalHeaders : list jsstring) (activeColIndices : list nat)
    (dataRows dataRows' : list (list Cell)) :
  length finalHeaders = length activeColIndices ->
  (forall i, i ∈ activeColIndices -> columnValues dataRows i = columnValues dataRows' i) ->
  columnsOf finalHeaders activeColIndices dataRows
  = columnsOf finalHeaders activeColIndices dataRows'.
Proof.
  intros Hlen Hsame. unfold columnsOf. apply imap_ext. intros idx x Hx.
  assert (Hidx : idx < length activeColIndices).
  { rewrite <- Hlen. by eapply lookup_lt_Some. }
  destruct (lookup_lt_is_Some_2 _ _ Hidx) as [c Hc]. rewrite Hc. simpl.
  rewrite (Hsame c) by (by eapply list_elem_of_lookup_2). reflexivity.
Qed.

Lemma filter_ext_elem {A : Type} (P Q : A -> bool) (l : list A) :
  (forall x, x ∈ l -> P x = Q x) ->
  filter (fun x => P x) l = filter (fun x => Q x) l.
Proof.
  induction l as [|x l IH]; intros Hpq; [reflexivity|].
  rewrite !filter_cons, (Hpq x) by apply list_elem_of_here.
  rewrite IH; [reflexivity|].
  intros y Hy. apply Hpq. by apply list_elem_of_further.
Qed.

(** C10: only indices below the length of the header row become
    active, and the cells at or beyond that length reach neither a
    column nor a row: cutting every retained row to the length of the
    header row leaves the active indices, the columns (names, types and
    samples) and the materialized rows as they are. *)
Theorem columns_within_header_width (sheetNames0 : list jsstring) (targetSheet : jsstring)
    (rawRows : list (list Cell)) :
  let h := headerRowIndex (scanHeader rawRows) in
  let rawHeaders := default [] (rawRows !! h) in
  let width := length rawHeaders in
  let headers := headersOf rawHeaders in
  let dataRows := dataRowsOf rawRows h in
  let cut := map (take width) dataRows in
  let activeColIndices := activeColIndicesOf headers rawHeaders dataRows in
  let finalHeaders := finalHeadersOf headers activeColIndices in
  let t := parseRows sheetNames0 targetSheet rawRows in
  (forall i, i ∈ activeColIndices -> i < width)
  /\ length (columns t) = length activeColIndices
  /\ activeColIndicesOf headers rawHeaders cut = activeColIndices
  /\ columns t = columnsOf finalHeaders activeColIndices cut
  /\ rows t = map (rowObject finalHeaders activeColIndices) cut.
Proof.
  intros h rawHeaders width headers dataRows cut activeColIndices finalHeaders t.
  assert (Hwidth : forall i, i ∈ activeColIndices -> i < width).
  { intros i Hi%activeColIndicesOf_bound.
    unfold headers, headersOf in Hi. by rewrite length_imap in Hi. }
  assert (Hlen : length finalHeaders = length activeColIndices).
  { unfold finalHeaders, finalHeadersOf. apply length_map. }
  split; [exact Hwidth|]. split; [|split; [|split]].
  - unfold t, parseRows. simpl. unfold columnsOf. by rewrite length_imap.
  - unfold activeColIndices. rewrite !activeColIndicesOf_seq.
    apply filter_ext_elem. intros i Hi. apply isActive_take.
    apply elem_of_seq in Hi. unfold headers, headersOf in Hi.
    rewrite length_imap in Hi. unfold width. lia.
  - unfold t, parseRows. simpl. apply columnsOf_ext; [exact Hlen|].
    intros i Hi. symmetry. apply columnValues_take. by apply Hwidth.
  - unfold t, parseRows. simpl. unfold cut. rewrite map_map.
    apply map_ext. intros row. apply rowObject_ext.
    intros i Hi. symmetry. apply cellAt_take. by apply Hwidth.
Qed.

End WithHost.

(** ** The statements on concrete sheets *)

Import Examples.

(** C1 on the code: the row [[null, "TOTAL", null, null]], whose lone
    filled cell is at position 1, is dropped by the row filter, and the
    sheet whose only row after the header it is parses to no rows. *)
Theorem keepRow_drops_lone_cell_at_position_1 :
  length (filter (fun cell => isFilled cell) totalRow) = 1
  /\ isFilled (cellAt totalRow 0) = false
  /\ isFilled (cellAt totalRow 1) = true
  /\ keepRow totalRow = false
  /\ dataRowsOf totalSheet (headerRowIndex (scanHeader totalSheet)) = []
  /\ parseFile (workbookOf totalSheet) None
     = Return (parseRows [js "Sheet1"] (js "Sheet1") totalSheet)
  /\ rowCount (parseRows [js "Sheet1"] (js "Sheet1") totalSheet) = 0.
Proof. repeat split; vm_compute; reflexivity. Qed.

Lemma keepRow_lone_cell_elsewhere_witness : keepRow totalRow = false.
Proof.
  apply (keepRow_lone_cell_elsewhere totalRow); [reflexivity | by left].
Defined.

Lemma headerRowIndex_first_maximum_witness :
  headerRowIndex (scanHeader budgetSheet) = 1
  /\ headerRowIndex (scanHeader budgetSheet) < min 10 (length budgetSheet).
Proof.
  split; [reflexivity|].
  apply (headerRowIndex_first_maximum budgetSheet). discriminate.
Defined.

Lemma inferColumnType_thresholds_witness :
  currencyValues <> [] /\ inferColumnType currencyValues = Currency.
Proof.
  split; [discriminate|].
  rewrite (inferColumnType_thresholds currencyValues) by discriminate.
  vm_compute. reflexivity.
Defined.

Lemma inferColumnType_permutation_witness :
  inferColumnType mixedValues = inferColumnType mixedValuesSwapped.
Proof.
  apply (inferColumnType_permutation mixedValues mixedValuesSwapped).
  apply perm_swap.
Defined.

(** The examples of the design document. *)
Example inferColumnType_currency_example :
  inferColumnType currencyValues = Currency.
Proof. vm_compute. reflexivity. Qed.

Example inferColumnType_month_year_example :
  map classify monthYearValues = [Unclassified; Unclassified; Unclassified]
  /\ inferColumnType monthYearValues = Category.
Proof. split; vm_compute; reflexivity. Qed.

Example inferColumnType_mixed_example :
  inferColumnType mixedValues = Percentage.
Proof. vm_compute. reflexivity. Qed.

(** C8 as documented fails: two header cells with the same text give two
    columns of the same name. *)
Lemma column_names_not_distinct :
  exists t, parseFile (workbookOf twinHeaderSheet) None = Return t
            /\ map name (columns t) = [js "Amount"; js "Amount"]
            /\ ~ NoDup (map name (columns t)).
Proof.
  eexists. split; [reflexivity|]. split; [vm_compute; reflexivity|].
  vm_compute. intros H. apply NoDup_cons in H as [Hnotin _].
  apply Hnotin. apply list_elem_of_here.
Qed.

(** The placeholder of a blank header cell can repeat a header text. *)
Example column_names_placeholder_clash :
  map name (columns (parseRows [js "Sheet1"] (js "Sheet1") placeholderClashSheet))
  = [js "Column_2"; js "Column_2"; js "Kind"].
Proof. vm_compute. reflexivity. Qed.

Lemma parseFile_workbookOf (rawRows : list (list Cell)) :
  rawRows <> [] ->
  parseFile (workbookOf rawRows) None
  = Return (parseRows [js "Sheet1"] (js "Sheet1") rawRows).
Proof.
  intros Hne. unfold parseFile, workbookOf. cbn [SheetNames Sheets targetSheetOf].
  rewrite lookup_singleton_eq. cbn [default].
  destruct rawRows; [congruence | reflexivity].
Qed.

Lemma column_names_distinct_witness :
  map name (columns (parseRows [js "Sheet1"] (js "Sheet1") blankHeaderSheet))
  = [js "Date"; js "Column_2"; js "Kind"; js "Note"]
  /\ NoDup (map name (columns (parseRows [js "Sheet1"] (js "Sheet1") blankHeaderSheet))).
Proof.
  destruct (column_names_distinct (workbookOf blankHeaderSheet) None
              (parseRows [js "Sheet1"] (js "Sheet1") blankHeaderSheet))
    as [Hnames Hdistinct].
  - apply parseFile_workbookOf. discriminate.
  - split.
    + etransitivity; [exact Hnames|]. vm_compute. reflexivity.
    + apply Hdistinct.
      * vm_compute. repeat (apply NoDup_cons; split; [|]);
          try apply NoDup_nil_2;
          intros H; repeat (apply elem_of_cons in H as [H|H]; [discriminate H|]);
          by apply elem_of_nil in H.
      * intros i h Hi Hblank.
        destruct i as [|[|[|[|i]]]]; vm_compute in Hi; try discriminate Hi;
          injection Hi as <-; vm_compute in Hblank; try discriminate Hblank.
        vm_compute. intros H.
        repeat (apply elem_of_cons in H as [H|H]; [discriminate H|]).
        by apply elem_of_nil in H.
Defined.

Example column_names_with_placeholder :
  map name (columns (parseRows [js "Sheet1"] (js "Sheet1") blankHeaderSheet))
  = [js "Date"; js "Column_2"; js "Kind"; js "Note"].
Proof. vm_compute. reflexivity. Qed.

Lemma twoSheets_Details :
  Sheets twoSheets !! js "Details" = Some blankHeaderSheet.
Proof.
  unfold twoSheets. cbn [Sheets].
  rewrite lookup_insert_ne by discriminate. apply lookup_singleton_eq.
Qed.

Lemma twoSheets_Summary :
  Sheets twoSheets !! js "Summary" = Some budgetSheet.
Proof. unfold twoSheets. cbn [Sheets]. apply lookup_insert_eq. Qed.

Lemma parseFile_sheet_selection_witness :
  parseFile twoSheets (Some (js "Details"))
  = Return (parseRows [js "Summary"; js "Details"] (js "Details") blankHeaderSheet)
  /\ parseFile twoSheets (Some (js "Budget")) = parseFile twoSheets None
  /\ parseFile twoSheets None
     = Return (parseRows [js "Summary"; js "Details"] (js "Summary") budgetSheet).
Proof.
  destruct (parseFile_sheet_selection twoSheets (Some (js "Details"))
              (js "Summary") [js "Details"] eq_refl) as (Hknown & _ & _).
  destruct (parseFile_sheet_selection twoSheets (Some (js "Budget"))
              (js "Summary") [js "Details"] eq_refl) as (_ & _ & Hunknown).
  destruct (parseFile_sheet_selection twoSheets None
              (js "Summary") [js "Details"] eq_refl) as (_ & Hnone & _).
  split; [|split].
  - etransitivity.
    + apply (Hknown (js "Details")); [reflexivity | discriminate |].
      apply list_elem_of_further, list_elem_of_here.
    + rewrite twoSheets_Details. reflexivity.
  - apply (Hunknown (js "Budget")); [reflexivity|].
    intros H. repeat (apply elem_of_cons in H as [H|H]; [discriminate H|]).
    by apply elem_of_nil in H.
  - etransitivity.
    + apply Hnone. by left.
    + rewrite twoSheets_Summary. reflexivity.
Defined.

(** C10 on a sheet whose last row is longer than the header row: the
    stray fourth cell is in no sample. *)
Example columns_within_header_width_example :
  let t := parseRows [js "Sheet1"] (js "Sheet1") budgetSheet in
  map name (columns t) = [js "Date"; js "Amount"; js "Kind"]
  /\ map sample (columns t)
     = [ [text "01/02/2024"; text "03/02/2024"]; [text "$1,800.00"];
         [text "Salary"; text "Food"] ]
  /\ map (fun row => properties row !! js "Kind") (rows t)
     = [Some (text "Salary"); Some (text "Food")]
  /\ map (fun row => properties row !! js "Amount") (rows t)
     = [Some (text "$1,800.00"); Some CNull]
  /\ map (fun row => size (properties row)) (rows t) = [3; 3].
Proof. repeat split; vm_compute; reflexivity. Qed.

End SheetParserProps.

(** * The patterns on sample texts *)

Module PatternExamples.

Example currency_leading_glyph :
  Regex.matches Patterns.currency (js "$1,800.00") = true.
Proof. reflexivity. Qed.

Example currency_trailing_glyph :
  Regex.matches Patterns.currency (js "1,800 $") = true.
Proof. reflexivity. Qed.

Example currency_euro_glyph :
  Regex.matches Patterns.currency (8364%N :: js " 12") = true.
Proof. reflexivity. Qed.

Example currency_needs_glyph :
  Regex.matches Patterns.currency (js "1,800.00") = false.
Proof. reflexivity. Qed.

Example number_with_sign_and_commas :
  Regex.matches Patterns.number (js "-1,800.00") = true.
Proof. reflexivity. Qed.

Example percentage_with_fraction :
  Regex.matches Patterns.percentage (js "12.5%") = true.
Proof. reflexivity. Qed.

Example percentage_without_commas :
  Regex.matches Patterns.percentage (js "1,200%") = false.
Proof. reflexivity. Qed.

Example date_day_month_year : isLikelyDate (js " 12/01/2024 ") = true.
Proof. reflexivity. Qed.

Example date_year_first : isLikelyDate (js "2024-1-05") = true.
Proof. reflexivity. Qed.

Example date_month_name_any_case : isLikelyDate (js "jAN 5, 2024") = true.
Proof. reflexivity. Qed.

Example date_day_month_name : isLikelyDate (js "5 dec 2024") = true.
Proof. reflexivity. Qed.

Example date_month_and_year_only : isLikelyDate (js "Jan 2024") = false.
Proof. reflexivity. Qed.

Example date_five_digit_year : isLikelyDate (js "12/01/20245") = false.
Proof. reflexivity. Qed.

Example label_does_not_look_like_data :
  Regex.matchesPrefix Patterns.looksLikeDataPrefix (js "TOTAL") = false.
Proof. reflexivity. Qed.

Example leading_digits_look_like_data :
  Regex.matchesPrefix Patterns.looksLikeDataPrefix (js "12 apples") = true.
Proof. reflexivity. Qed.

Example empty_does_not_look_like_data :
  Regex.matchesPrefix Patterns.looksLikeDataPrefix (js "") = false.
Proof. reflexivity. Qed.

Example trim_both_ends : JsString.trim (js "  a b  ") = js "a b".
Proof. reflexivity. Qed.

Example white_space_runs_collapse :
  JsString.replaceWhiteSpaceRuns (js "a  b c") = js "a_b_c".
Proof. reflexivity. Qed.

Example placeholder_number : js "Column_" ++ JsString.ofNat (11 + 1) = js "Column_12".
Proof. reflexivity. Qed.

End PatternExamples.

(** * More on suggestCharts: what a suggestion refers to, and its id *)

Module ChartSuggesterMore.
Import ChartSuggester ChartSuggesterTerms.

Lemma elem_of_flat_map_pairs {A B C : Type} (f : A -> B -> list C)
    (outer : list A) (inner : list B) (s : C) :
  s ∈ flat_map (fun a => flat_map (f a) inner) outer
  <-> exists a b, a ∈ outer /\ b ∈ inner /\ s ∈ f a b.
Proof.
  rewrite list_elem_of_In, in_flat_map. split.
  - intros (a & Ha & Hs). apply in_flat_map in Hs as (b & Hb & Hs).
    exists a, b. by rewrite !list_elem_of_In.
  - intros (a & b & Ha & Hb & Hs). exists a. split; [by apply list_elem_of_In|].
    apply in_flat_map. exists b. by rewrite <- !list_elem_of_In.
Qed.

Lemma elem_of_partition (P : Column -> bool) (columns : list Column) (c : Column) :
  c ∈ filter (fun c => P c) columns <-> P c = true /\ c ∈ columns.
Proof. by rewrite list_elem_of_filter, Is_true_true. Qed.

(** Where each chart of the result comes from. *)
Lemma elem_of_charts (columns : list Column) (s : Suggestion) :
  s ∈ charts (suggestCharts columns)
  <-> exists x n, x ∈ columns /\ n ∈ columns /\ isNumericCol n = true
        /\ ((isDateCol x = true /\ (s = lineChart x n \/ s = areaChart x n))
            \/ (isCategoryCol x = true /\ (s = barChart x n \/ s = pieChart x n))).
Proof.
  rewrite ChartSuggesterProps.charts_unfold. cbv zeta.
  rewrite !elem_of_app, !elem_of_flat_map_pairs. split.
  - intros [(x & n & Hx & Hn & Hs) | [(x & n & Hx & Hn & Hs) | (x & n & Hx & Hn & Hs)]];
      apply elem_of_partition in Hx as [Px Hx];
      apply elem_of_partition in Hn as [Pn Hn];
      exists x, n; repeat (split; [assumption|]).
    + left. split; [assumption|].
      apply elem_of_cons in Hs as [->|Hs]; [by left|].
      apply list_elem_of_singleton in Hs as ->. by right.
    + right. split; [assumption|].
      apply list_elem_of_singleton in Hs as ->. by left.
    + right. split; [assumption|].
      apply list_elem_of_singleton in Hs as ->. by right.
  - intros (x & n & Hx & Hn & Pn & [[Px [-> | ->]] | [Px [-> | ->]]]).
    + left. exists x, n. rewrite !elem_of_partition. repeat split; try assumption.
      apply list_elem_of_here.
    + left. exists x, n. rewrite !elem_of_partition. repeat split; try assumption.
      apply list_elem_of_further, list_elem_of_here.
    + right; left. exists x, n. rewrite !elem_of_partition.
      repeat split; try assumption. apply list_elem_of_here.
    + right; right. exists x, n. rewrite !elem_of_partition.
      repeat split; try assumption. apply list_elem_of_here.
Qed.

Lemma elem_of_statCards (columns : list Column) (s : Suggestion) :
  s ∈ statCards (suggestCharts columns)
  <-> exists n, n ∈ columns /\ isNumericCol n = true /\ s = statCard n.
Proof.
  unfold suggestCharts. cbn [statCards].
  change (map statCard ?l) with (statCard <$> l).
  rewrite list_elem_of_fmap. split.
  - intros (n & -> & Hn). apply elem_of_partition in Hn as [Pn Hn]. by exists n.
  - intros (n & Hn & Pn & ->). exists n. split; [done|]. by apply elem_of_partition.
Qed.

Lemma isNumericCol_spec (c : Column) :
  isNumericCol c = true <-> type c ∈ [js "Number"; js "Currency"; js "Percentage"].
Proof. apply ChartSuggesterProps.includes_elem_of. Qed.

Lemma isDateCol_spec (c : Column) : isDateCol c = true <-> type c = js "Date".
Proof. unfold isDateCol. by rewrite bool_decide_eq_true. Qed.

Lemma isCategoryCol_spec (c : Column) : isCategoryCol c = true <-> type c = js "Category".
Proof. unfold isCategoryCol. by rewrite bool_decide_eq_true. Qed.

(** X1: every chart of the result plots two columns of the input: its
    [yColumn] is the name of a column of type Number, Currency or
    Percentage, and its [xColumn] is the name of a Date column for a line
    or area chart and of a Category column for a bar or pie chart. *)
Theorem chart_refers_to_input_columns (columns : list Column) (s : Suggestion) :
  s ∈ charts (suggestCharts columns) ->
  exists x n,
    x ∈ columns /\ n ∈ columns
    /\ xColumn s = Some (name x) /\ yColumn s = name n
    /\ type n ∈ [js "Number"; js "Currency"; js "Percentage"]
    /\ ((type x = js "Date" /\ (chartType s = line \/ chartType s = area))
        \/ (type x = js "Category" /\ (chartType s = bar \/ chartType s = pie))).
Proof.
  intros (x & n & Hx & Hn & Pn & Hs)%elem_of_charts.
  exists x, n. apply isNumericCol_spec in Pn.
  destruct Hs as [[Px%isDateCol_spec [-> | ->]] | [Px%isCategoryCol_spec [-> | ->]]];
    cbn [xColumn yColumn chartType]; repeat (split; [done|]); auto.
Qed.

(** X2: every stat card summarises one numeric column of the input and
    has no [xColumn]; and every numeric column of the input has its stat
    card. *)
Theorem statCard_refers_to_numeric_column (columns : list Column) :
  (forall s, s ∈ statCards (suggestCharts columns) ->
     chartType s = stats /\ xColumn s = None
     /\ exists n, n ∈ columns /\ yColumn s = name n
                  /\ type n ∈ [js "Number"; js "Currency"; js "Percentage"])
  /\ (forall n, n ∈ columns ->
        type n ∈ [js "Number"; js "Currency"; js "Percentage"] ->
        statCard n ∈ statCards (suggestCharts columns)).
Proof.
  split.
  - intros s (n & Hn & Pn & ->)%elem_of_statCards. cbn [chartType xColumn yColumn].
    repeat (split; [done|]). exists n. by rewrite <- isNumericCol_spec.
  - intros n Hn Pn. apply elem_of_statCards. exists n. by rewrite isNumericCol_spec.
Qed.

(** X3: without a numeric column there is no suggestion at all; the
    stat cards are empty exactly then, and the charts are empty exactly
    when there is no numeric column or neither a Date nor a Category
    column. *)
Theorem suggestions_empty_iff (columns : list Column) :
  let numeric c := type c ∈ [js "Number"; js "Currency"; js "Percentage"] in
  (statCards (suggestCharts columns) = [] <-> forall c, c ∈ columns -> ~ numeric c)
  /\ (charts (suggestCharts columns) = []
      <-> (forall c, c ∈ columns -> ~ numeric c)
          \/ (forall c, c ∈ columns -> type c <> js "Date" /\ type c <> js "Category")).
Proof.
  intros numeric. split.
  - split.
    + intros Hnil c Hc Hnum.
      assert (Hin : statCard c ∈ statCards (suggestCharts columns)).
      { apply elem_of_statCards. exists c. by rewrite isNumericCol_spec. }
      rewrite Hnil in Hin. by apply elem_of_nil in Hin.
    + intros Hnone. destruct (statCards (suggestCharts columns)) as [|s l] eqn:E; [done|].
      assert (Hin : s ∈ statCards (suggestCharts columns))
        by (rewrite E; apply list_elem_of_here).
      apply elem_of_statCards in Hin as (n & Hn & Pn%isNumericCol_spec & _).
      by destruct (Hnone n Hn).
  - split.
    + intros Hnil.
      destruct (decide (Exists (fun c => numeric c) columns)) as [Hex|Hnex].
      * right. apply Exists_exists in Hex as (n & Hn & Pn). intros c Hc.
        split; intros Ec.
        -- assert (Hin : lineChart c n ∈ charts (suggestCharts columns)).
           { apply elem_of_charts. exists c, n. rewrite isNumericCol_spec, isDateCol_spec.
             repeat (split; [done|]). left. split; [done | by left]. }
           rewrite Hnil in Hin. by apply elem_of_nil in Hin.
        -- assert (Hin : barChart c n ∈ charts (suggestCharts columns)).
           { apply elem_of_charts. exists c, n.
             rewrite isNumericCol_spec, isCategoryCol_spec.
             repeat (split; [done|]). right. split; [done | by left]. }
           rewrite Hnil in Hin. by apply elem_of_nil in Hin.
      * left. intros c Hc Pc. apply Hnex, Exists_exists. by exists c.
    + intros Hnone. destruct (charts (suggestCharts columns)) as [|s l] eqn:E; [done|].
      assert (Hin : s ∈ charts (suggestCharts columns))
        by (rewrite E; apply list_elem_of_here).
      apply elem_of_charts in Hin as (x & n & Hx & Hn & Pn%isNumericCol_spec & Hs).
      destruct Hnone as [Hnone|Hnone]; [by destruct (Hnone n Hn)|].
      destruct (Hnone x Hx) as [Hd Hc].
      by destruct Hs as [[Px%isDateCol_spec _] | [Px%isCategoryCol_spec _]].
Qed.

(** ** Suggestion ids *)

Lemma collapseFrom_no_white_space (inRun : bool) (s : jsstring) :
  Forall (fun c => JsString.isWhiteSpace c = false) (JsString.collapseFrom inRun s).
Proof.
  revert inRun. induction s as [|c s IH]; intros inRun; simpl; [constructor|].
  destruct (JsString.isWhiteSpace c) eqn:Ec.
  - destruct inRun; [apply IH|]. constructor; [reflexivity | apply IH].
  - constructor; [exact Ec | apply IH].
Qed.

(** A string without white space is left as it is. *)
Lemma collapseFrom_id (inRun : bool) (s : jsstring) :
  Forall (fun c => JsString.isWhiteSpace c = false) s ->
  JsString.collapseFrom inRun s = s.
Proof.
  revert inRun. induction s as [|c s IH]; intros inRun Hs; simpl; [reflexivity|].
  apply Forall_cons in Hs as [Hc Hs]. rewrite Hc. f_equal. by apply IH.
Qed.

Lemma elem_of_suggestions (columns : list Column) (s : Suggestion) :
  s ∈ charts (suggestCharts columns) ++ statCards (suggestCharts columns) ->
  (exists x n, x ∈ columns /\ n ∈ columns
     /\ (s = lineChart x n \/ s = areaChart x n \/ s = barChart x n \/ s = pieChart x n))
  \/ (exists n, n ∈ columns /\ s = statCard n).
Proof.
  intros [Hs|Hs]%elem_of_app.
  - left. apply elem_of_charts in Hs as (x & n & Hx & Hn & _ & Hs).
    exists x, n. repeat (split; [done|]).
    destruct Hs as [[_ [-> | ->]] | [_ [-> | ->]]]; auto.
  - right. apply elem_of_statCards in Hs as (n & Hn & _ & ->). by exists n.
Qed.

(** X4: no id of a suggestion contains a white-space character, whatever
    the column names are. *)
Theorem suggestion_id_without_white_space (columns : list Column) (s : Suggestion) :
  s ∈ charts (suggestCharts columns) ++ statCards (suggestCharts columns) ->
  Forall (fun c => JsString.isWhiteSpace c = false) (id s).
Proof.
  intros [(x & n & _ & _ & [-> | [-> | [-> | ->]]]) | (n & _ & ->)]%elem_of_suggestions;
    apply collapseFrom_no_white_space.
Qed.

Lemma plainName_no_white_space (c : Column) :
  plainName c -> Forall (fun u => JsString.isWhiteSpace u = false) (name c).
Proof. intros H. eapply Forall_impl; [exact H|]. by intros u [Hu _]. Qed.

Lemma plainName_no_underscore (c : Column) : plainName c -> 95%N ∉ name c.
Proof.
  intros Hc Hin. unfold plainName in Hc. rewrite Forall_forall in Hc.
  by destruct (Hc _ Hin) as [_ Hne].
Qed.

Lemma pair_id (kind : string) (x n : Column) :
  Forall (fun u => JsString.isWhiteSpace u = false) (JsString.lit kind) ->
  plainName x -> plainName n ->
  JsString.replaceWhiteSpaceRuns (JsString.lit kind ++ name x ++ js "_" ++ name n)
  = JsString.lit kind ++ name x ++ 95%N :: name n.
Proof.
  intros Hkind Hx%plainName_no_white_space Hn%plainName_no_white_space.
  unfold JsString.replaceWhiteSpaceRuns. apply collapseFrom_id.
  rewrite !Forall_app. repeat split; try assumption.
  by constructor.
Qed.

Lemma stats_id (n : Column) :
  plainName n ->
  JsString.replaceWhiteSpaceRuns (js "stats_" ++ name n) = js "stats_" ++ name n.
Proof.
  intros Hn%plainName_no_white_space.
  unfold JsString.replaceWhiteSpaceRuns. apply collapseFrom_id.
  rewrite Forall_app. split; [|assumption]. by repeat constructor.
Qed.

(** Two names joined by an underscore can be told apart again when the
    first has no underscore. *)
Lemma joined_inj (a a' b b' : jsstring) :
  95%N ∉ a -> 95%N ∉ a' -> a ++ 95%N :: b = a' ++ 95%N :: b' -> a = a' /\ b = b'.
Proof.
  revert a'. induction a as [|u a IH]; intros [|u' a'] Ha Ha' E; simpl in E.
  - by injection E as ->.
  - injection E as <- _. exfalso. apply Ha'. apply list_elem_of_here.
  - injection E as -> _. exfalso. apply Ha. apply list_elem_of_here.
  - injection E as -> E.
    destruct (IH a') as [-> ->]; try done.
    + intros H. apply Ha. by apply list_elem_of_further.
    + intros H. apply Ha'. by apply list_elem_of_further.
Qed.

Lemma column_of_name (columns : list Column) (x x' : Column) :
  NoDup (map name columns) -> x ∈ columns -> x' ∈ columns -> name x = name x' -> x = x'.
Proof.
  intros Hnd Hx Hx' E.
  apply list_elem_of_lookup in Hx as [i Hi]. apply list_elem_of_lookup in Hx' as [j Hj].
  assert (i = j) as ->; [|congruence].
  eapply NoDup_lookup; [exact Hnd| |].
  - change (map name columns) with (name <$> columns).
    rewrite list_lookup_fmap, Hi. reflexivity.
  - change (map name columns) with (name <$> columns).
    rewrite list_lookup_fmap, Hj. simpl. by rewrite E.
Qed.

(** X5: when the column names are pairwise distinct and contain neither
    white space nor an underscore, two suggestions of one result with the
    same id are the same suggestion. *)
Theorem suggestion_id_identifies (columns : list Column) (s s' : Suggestion) :
  NoDup (map name columns) ->
  (forall c, c ∈ columns -> plainName c) ->
  s ∈ charts (suggestCharts columns) ++ statCards (suggestCharts columns) ->
  s' ∈ charts (suggestCharts columns) ++ statCards (suggestCharts columns) ->
  id s = id s' -> s = s'.
Proof.
  intros Hnd Hplain Hs Hs' E.
  assert (Hkinds : forall kind, kind ∈ ["line_"; "area_"; "bar_"; "pie_"]%string ->
            Forall (fun u => JsString.isWhiteSpace u = false) (JsString.lit kind)).
  { intros kind Hk. repeat (apply elem_of_cons in Hk as [-> | Hk]; [by repeat constructor|]).
    by apply elem_of_nil in Hk. }
  apply elem_of_suggestions in Hs as [(x & n & Hx & Hn & Hs) | (n & Hn & ->)];
  apply elem_of_suggestions in Hs' as [(x' & n' & Hx' & Hn' & Hs') | (n' & Hn' & ->)].
  - pose proof (Hplain x Hx) as Px. pose proof (Hplain n Hn) as Pn.
    pose proof (Hplain x' Hx') as Px'. pose proof (Hplain n' Hn') as Pn'.
    destruct Hs as [-> | [-> | [-> | ->]]], Hs' as [-> | [-> | [-> | ->]]];
      cbn [id lineChart areaChart barChart pieChart] in E;
      rewrite !pair_id in E
        by (try assumption; apply Hkinds; set_solver);
      try (apply (f_equal head) in E; vm_compute in E; discriminate E);
      apply app_inv_head in E;
      apply joined_inj in E as [Ex En]; try (by apply plainName_no_underscore);
      rewrite (column_of_name columns x x' Hnd Hx Hx' Ex),
              (column_of_name columns n n' Hnd Hn Hn' En); reflexivity.
  - pose proof (Hplain x Hx) as Px. pose proof (Hplain n Hn) as Pn.
    pose proof (Hplain n' Hn') as Pn'. exfalso.
    destruct Hs as [-> | [-> | [-> | ->]]];
      cbn [id lineChart areaChart barChart pieChart statCard] in E;
      rewrite pair_id, stats_id in E
        by (try assumption; apply Hkinds; set_solver);
      apply (f_equal head) in E; vm_compute in E; discriminate E.
  - pose proof (Hplain x' Hx') as Px'. pose proof (Hplain n Hn) as Pn.
    pose proof (Hplain n' Hn') as Pn'. exfalso.
    destruct Hs' as [-> | [-> | [-> | ->]]];
      cbn [id lineChart areaChart barChart pieChart statCard] in E;
      rewrite pair_id, stats_id in E
        by (try assumption; apply Hkinds; set_solver);
      apply (f_equal head) in E; vm_compute in E; discriminate E.
  - cbn [id statCard] in E.
    rewrite !stats_id in E by (by apply Hplain).
    apply app_inv_head in E.
    by rewrite (column_of_name columns n n' Hnd Hn Hn' E).
Qed.

(** ** The order of the input columns *)

Lemma flat_map_pointwise_perm {A B : Type} (f g : A -> list B) (l : list A) :
  (forall a, f a ≡ₚ g a) -> flat_map f l ≡ₚ flat_map g l.
Proof.
  intros Hfg. induction l as [|a l IH]; simpl; [done|].
  by apply Permutation_app.
Qed.

Lemma flat_map_pairs_perm {A B C : Type} (f : A -> B -> list C)
    (outer outer' : list A) (inner inner' : list B) :
  outer ≡ₚ outer' -> inner ≡ₚ inner' ->
  flat_map (fun a => flat_map (f a) inner) outer
  ≡ₚ flat_map (fun a => flat_map (f a) inner') outer'.
Proof.
  intros Houter Hinner.
  transitivity (flat_map (fun a => flat_map (f a) inner') outer).
  - apply flat_map_pointwise_perm. intros a. by apply Permutation_flat_map.
  - by apply Permutation_flat_map.
Qed.

(** X22: reordering the input columns reorders the suggestions and
    changes nothing else: the charts of the two results are permutations
    of one another, and so are the stat cards. *)
Theorem suggestions_permutation (columns columns' : list Column) :
  columns ≡ₚ columns' ->
  charts (suggestCharts columns) ≡ₚ charts (suggestCharts columns')
  /\ statCards (suggestCharts columns) ≡ₚ statCards (suggestCharts columns').
Proof.
  intros Hperm.
  assert (Hd : filter (fun c => isDateCol c) columns
               ≡ₚ filter (fun c => isDateCol c) columns') by (by rewrite Hperm).
  assert (Hn : filter (fun c => isNumericCol c) columns
               ≡ₚ filter (fun c => isNumericCol c) columns') by (by rewrite Hperm).
  assert (Hc : filter (fun c => isCategoryCol c) columns
               ≡ₚ filter (fun c => isCategoryCol c) columns') by (by rewrite Hperm).
  split.
  - rewrite !ChartSuggesterProps.charts_unfold. cbv zeta.
    repeat apply Permutation_app; by apply flat_map_pairs_perm.
  - unfold suggestCharts. cbn [statCards]. by apply Permutation_map.
Qed.

End ChartSuggesterMore.

(** * More on parseFile: the selected sheet, retained rows, columns and row objects *)

Module SheetParserMore.
Import SheetParser SheetParserTerms SheetParserProps.

Section WithHost.

Context `{host : Host}.

(** ** The selected sheet *)

Lemma targetSheetOf_elem (names : list jsstring) (first : jsstring)
    (requested : option jsstring) :
  first ∈ names -> targetSheetOf names first requested ∈ names.
Proof.
  intros Hfirst. unfold targetSheetOf. destruct requested as [s|]; [|done].
  destruct (nonEmptyString s); simpl; [|done].
  destruct (bool_decide_reflect (s ∈ names)); done.
Qed.

(** X7: a table that [parseFile] returns names the workbook's sheets, and
    its selected sheet is one of them, has a worksheet and has at least
    one row. *)
Theorem parseFile_selected_sheet (workbook : Workbook) (requested : option jsstring)
    (t : ParsedTable) :
  parseFile workbook requested = Return t ->
  sheetNames t = SheetNames workbook
  /\ selectedSheet t ∈ SheetNames workbook
  /\ exists row rows0, Sheets workbook !! selectedSheet t = Some (row :: rows0).
Proof.
  unfold parseFile.
  destruct (SheetNames workbook) as [|first rest] eqn:Enames; [discriminate|].
  set (target := targetSheetOf _ _ _).
  assert (Htarget : target ∈ first :: rest)
    by (apply targetSheetOf_elem, list_elem_of_here).
  destruct (Sheets workbook !! target) as [rawRows|] eqn:Esheet; simpl; [|discriminate].
  destruct rawRows as [|row rows0]; [discriminate|].
  intros [= <-]. cbn [sheetNames selectedSheet].
  split; [done|]. split; [done|]. by exists row, rows0.
Qed.

(** ** Retained rows *)

Lemma scanHeader_bound (rawRows : list (list Cell)) :
  rawRows <> [] -> headerRowIndex (scanHeader rawRows) < length rawRows.
Proof.
  intros Hne.
  destruct (scanned_loop rawRows (min 10 (length rawRows))) as (_ & Hpos & _).
  destruct Hpos as [Hlt _].
  - destruct rawRows; [congruence | simpl; lia].
  - unfold scanHeader. lia.
Qed.

Lemma keepRow_filled (row : list Cell) :
  keepRow row = true -> 1 <= length (filter (fun cell => isFilled cell) row).
Proof.
  unfold keepRow.
  destruct (length (filter (fun cell => isFilled cell) row)); simpl; [discriminate | lia].
Qed.

Lemma keepRow_two_filled (row : list Cell) :
  2 <= length (filter (fun cell => isFilled cell) row) -> keepRow row = true.
Proof.
  unfold keepRow.
  destruct (length (filter (fun cell => isFilled cell) row)) as [|[|n]]; simpl;
    [lia | lia | reflexivity].
Qed.

(** X8: the retained rows are rows below the header row, in their
    original order; each has a filled cell, and every row below the
    header row with two or more filled cells is retained.  So the row
    count and the header row and what is above it never exceed the
    grid. *)
Theorem retained_rows (sheetNames0 : list jsstring) (targetSheet : jsstring)
    (rawRows : list (list Cell)) :
  rawRows <> [] ->
  let h := headerRowIndex (scanHeader rawRows) in
  let below := drop (h + 1) rawRows in
  let dataRows := dataRowsOf rawRows h in
  let t := parseRows sheetNames0 targetSheet rawRows in
  dataRows `sublist_of` below
  /\ (forall row, row ∈ dataRows ->
        1 <= length (filter (fun cell => isFilled cell) row))
  /\ (forall row, row ∈ below ->
        2 <= length (filter (fun cell => isFilled cell) row) -> row ∈ dataRows)
  /\ rowCount t = length dataRows
  /\ rowCount t + h + 1 <= length rawRows.
Proof.
  intros Hne h below dataRows t.
  assert (Hsub : dataRows `sublist_of` below) by apply sublist_filter.
  assert (Hcount : rowCount t = length dataRows).
  { unfold t, parseRows. cbn [rowCount]. by rewrite length_map. }
  split; [exact Hsub|]. split; [|split; [|split; [exact Hcount|]]].
  - intros row [Hkeep _]%list_elem_of_filter.
    apply keepRow_filled. by apply Is_true_true.
  - intros row Hrow Htwo. apply list_elem_of_filter. split; [|done].
    apply Is_true_true. by apply keepRow_two_filled.
  - rewrite Hcount. apply sublist_length in Hsub.
    unfold below in Hsub. rewrite length_drop in Hsub.
    pose proof (scanHeader_bound rawRows Hne). fold h in H. lia.
Qed.

(** ** Row objects *)

Lemma fold_left_imap_ext {A B B' C : Type} (f : C -> B -> C) (f' : C -> B' -> C)
    (g : nat -> A -> B) (g' : nat -> A -> B') (l : list A) (a : C) :
  (forall acc i x, f acc (g i x) = f' acc (g' i x)) ->
  fold_left f (imap g l) a = fold_left f' (imap g' l) a.
Proof.
  revert g g' a. induction l as [|x l IH]; intros g g' a Hfg; [reflexivity|].
  rewrite !imap_cons. simpl. rewrite Hfg. apply IH.
  intros acc i y. apply Hfg.
Qed.

(** A row object is its entries written one after the other. *)
Lemma rowObject_entries (finalHeaders : list jsstring) (activeColIndices : list nat)
    (row : list Cell) :
  rowObject finalHeaders activeColIndices row
  = fold_left (fun obj kv => setProperty obj kv.1 kv.2)
              (rowEntries finalHeaders activeColIndices row) emptyObject.
Proof. unfold rowObject, rowEntries. by apply fold_left_imap_ext. Qed.

Lemma rowEntries_lookup (finalHeaders : list jsstring) (activeColIndices : list nat)
    (row : list Cell) (idx : nat) :
  rowEntries finalHeaders activeColIndices row !! idx
  = (fun colIndex => (default [] (finalHeaders !! idx), stored (cellAt row colIndex)))
    <$> activeColIndices !! idx.
Proof. unfold rowEntries. apply list_lookup_imap. Qed.

Lemma rowEntries_keys (finalHeaders : list jsstring) (activeColIndices : list nat)
    (row : list Cell) :
  length finalHeaders = length activeColIndices ->
  (rowEntries finalHeaders activeColIndices row).*1 = finalHeaders.
Proof.
  intros Hlen. apply list_eq. intros i.
  rewrite list_lookup_fmap, rowEntries_lookup.
  destruct (activeColIndices !! i) as [c|] eqn:Ec; simpl.
  - apply lookup_lt_Some in Ec. rewrite <- Hlen in Ec.
    destruct (lookup_lt_is_Some_2 _ _ Ec) as [k Hk]. by rewrite Hk.
  - apply lookup_ge_None in Ec. symmetry. apply lookup_ge_None. lia.
Qed.

(** One write. *)
Lemma setProperty_plain (obj : JsObject) (k : jsstring) (v : Cell) :
  k <> js "__proto__" ->
  setProperty obj k v
  = {| properties := <[k := v]> (properties obj); prototype := prototype obj |}.
Proof. intros Hk. unfold setProperty. by rewrite bool_decide_eq_false_2. Qed.

Lemma setProperty_lookup_Some (obj : JsObject) (k key : jsstring) (v val : Cell) :
  properties (setProperty obj k v) !! key = Some val ->
  (key = k /\ val = v) \/ properties obj !! key = Some val.
Proof.
  assert (Hown : <[k := v]> (properties obj) !! key = Some val ->
                 (key = k /\ val = v) \/ properties obj !! key = Some val).
  { intros [[-> ->] | [_ H]]%lookup_insert_Some; [by left | by right]. }
  unfold setProperty. case_bool_decide; [|exact Hown].
  destruct (properties obj !! k); [exact Hown|].
  destruct (prototype obj); try exact Hown; destruct v; simpl; auto.
Qed.

Lemma setProperty_lookup_ne (obj : JsObject) (k key : jsstring) (v : Cell) :
  key <> k -> properties (setProperty obj k v) !! key = properties obj !! key.
Proof.
  intros Hne.
  assert (Hown : <[k := v]> (properties obj) !! key = properties obj !! key)
    by (by apply lookup_insert_ne).
  unfold setProperty. case_bool_decide; [|exact Hown].
  destruct (properties obj !! k); [exact Hown|].
  destruct (prototype obj); try exact Hown; by destruct v.
Qed.

Lemma setProperty_lookup_eq (obj : JsObject) (k : jsstring) (v : Cell) :
  k <> js "__proto__" -> properties (setProperty obj k v) !! k = Some v.
Proof. intros Hk. rewrite setProperty_plain by done. apply lookup_insert_eq. Qed.

(** A sequence of writes. *)
Section Writes.

Implicit Types (obj : JsObject) (kvs : list (jsstring * Cell)).

Lemma writes_lookup_Some kvs obj (key : jsstring) (val : Cell) :
  properties (fold_left (fun obj kv => setProperty obj kv.1 kv.2) kvs obj) !! key
  = Some val ->
  (key, val) ∈ kvs \/ properties obj !! key = Some val.
Proof.
  revert obj. induction kvs as [|[k v] kvs IH]; intros obj; simpl; [by right|].
  intros [Hin | Hobj]%IH.
  - left. by apply list_elem_of_further.
  - apply setProperty_lookup_Some in Hobj as [[-> ->] | Hobj]; [|by right].
    left. apply list_elem_of_here.
Qed.

Lemma writes_lookup_other kvs obj (k : jsstring) :
  k ∉ kvs.*1 ->
  properties (fold_left (fun obj kv => setProperty obj kv.1 kv.2) kvs obj) !! k
  = properties obj !! k.
Proof.
  revert obj. induction kvs as [|[k' v] kvs IH]; intros obj Hk; simpl; [reflexivity|].
  rewrite fmap_cons, not_elem_of_cons in Hk. destruct Hk as [Hne Hk]. simpl in Hne.
  rewrite IH by done. by apply setProperty_lookup_ne.
Qed.

(** The last write to a key other than [__proto__] is the one that is
    read. *)
Lemma writes_lookup_last kvs kvs' obj (k : jsstring) (v : Cell) :
  k <> js "__proto__" ->
  k ∉ kvs'.*1 ->
  properties (fold_left (fun obj kv => setProperty obj kv.1 kv.2)
                        (kvs ++ (k, v) :: kvs') obj) !! k
  = Some v.
Proof.
  intros Hproto Hk. rewrite fold_left_app. simpl.
  rewrite writes_lookup_other by done. by apply setProperty_lookup_eq.
Qed.

(** A key other than [__proto__] that is written, or was there before,
    is there afterwards. *)
Lemma writes_key kvs obj (key : jsstring) :
  key <> js "__proto__" ->
  key ∈ kvs.*1 \/ is_Some (properties obj !! key) ->
  is_Some (properties (fold_left (fun obj kv => setProperty obj kv.1 kv.2) kvs obj)
           !! key).
Proof.
  intros Hproto. revert obj.
  induction kvs as [|[k v] kvs IH]; intros obj Hkey; simpl.
  - destruct Hkey as [Hin | Hobj]; [|done]. by apply elem_of_nil in Hin.
  - apply IH. destruct (decide (key = k)) as [-> | Hne].
    + right. rewrite setProperty_lookup_eq by done. by eexists.
    + rewrite setProperty_lookup_ne by done.
      destruct Hkey as [Hin | Hobj]; [|by right].
      rewrite fmap_cons in Hin. apply elem_of_cons in Hin as [Hin | Hin]; [done | by left].
Qed.

(** Without a write to [__proto__] the prototype stays. *)
Lemma writes_prototype kvs obj :
  js "__proto__" ∉ kvs.*1 ->
  prototype (fold_left (fun obj kv => setProperty obj kv.1 kv.2) kvs obj)
  = prototype obj.
Proof.
  revert obj. induction kvs as [|[k v] kvs IH]; intros obj Hk; simpl; [reflexivity|].
  rewrite fmap_cons, not_elem_of_cons in Hk. destruct Hk as [Hne Hk]. simpl in Hne.
  rewrite IH by done. by rewrite setProperty_plain.
Qed.

End Writes.

Lemma finalHeadersOf_length (headers : list jsstring) (activeColIndices : list nat) :
  length (finalHeadersOf headers activeColIndices) = length activeColIndices.
Proof. apply length_map. Qed.

Lemma stored_cases (val : Cell) : stored val = CNull \/ isFilled (stored val) = true.
Proof. unfold stored. destruct (isFilled val) eqn:E; [by right | by left]. Qed.

(** X9: the own keys of every row object of a parsed table are column
    names, and every column name other than [__proto__] is an own key:
    a write under [__proto__] goes to the accessor of the prototype and
    need not leave a key.  So for a table without a column of that name
    the own keys are exactly the column names, and the object still
    inherits from [Object.prototype].  Each own value is [null] or a
    filled cell, never an empty or blank string. *)
Theorem row_keys_and_values (sheetNames0 : list jsstring) (targetSheet : jsstring)
    (rawRows : list (list Cell)) (obj : JsObject) :
  let t := parseRows sheetNames0 targetSheet rawRows in
  let names := map name (columns t) in
  obj ∈ rows t ->
  (forall key, key ∈ dom (properties obj) -> key ∈ names)
  /\ (forall key, key ∈ names -> key <> js "__proto__" -> key ∈ dom (properties obj))
  /\ (js "__proto__" ∉ names ->
      dom (properties obj) = list_to_set names /\ prototype obj = ObjectPrototype)
  /\ (forall key val, properties obj !! key = Some val ->
        val = CNull \/ isFilled val = true).
Proof.
  intros t names Hobj. unfold names, t in *. rewrite parseRows_names.
  unfold parseRows in Hobj. cbn [rows] in Hobj.
  change (map ?f ?l) with (f <$> l) in Hobj.
  apply list_elem_of_fmap in Hobj as (row & -> & _).
  rewrite rowObject_entries.
  set (finalHeaders := finalHeadersOf _ _).
  set (activeColIndices := activeColIndicesOf _ _ _) in *.
  assert (Hkeys : (rowEntries finalHeaders activeColIndices row).*1 = finalHeaders)
    by apply rowEntries_keys, finalHeadersOf_length.
  assert (Hsub : forall key,
             key ∈ dom (properties
                          (fold_left (fun obj kv => setProperty obj kv.1 kv.2)
                                     (rowEntries finalHeaders activeColIndices row)
                                     emptyObject)) ->
             key ∈ finalHeaders).
  { intros key [val Hval]%elem_of_dom.
    apply writes_lookup_Some in Hval as [Hin | Hempty].
    - rewrite <- Hkeys. apply list_elem_of_fmap. by exists (key, val).
    - simpl in Hempty. by rewrite lookup_empty in Hempty. }
  assert (Hsup : forall key,
             key ∈ finalHeaders -> key <> js "__proto__" ->
             key ∈ dom (properties
                          (fold_left (fun obj kv => setProperty obj kv.1 kv.2)
                                     (rowEntries finalHeaders activeColIndices row)
                                     emptyObject))).
  { intros key Hin Hproto. apply elem_of_dom, writes_key; [done|].
    left. by rewrite Hkeys. }
  split; [exact Hsub|]. split; [exact Hsup|]. split.
  - intros Hproto. split.
    + apply set_eq. intros key. rewrite elem_of_list_to_set. split; [apply Hsub|].
      intros Hin. apply Hsup; [done|]. by intros ->.
    + rewrite writes_prototype; [reflexivity|]. by rewrite Hkeys.
  - intros key val Hval.
    apply writes_lookup_Some in Hval as [Hin | Hempty].
    + apply list_elem_of_lookup in Hin as [i Hi].
      rewrite rowEntries_lookup in Hi.
      apply fmap_Some in Hi as (c & _ & [= _ ->]). apply stored_cases.
    + simpl in Hempty. by rewrite lookup_empty in Hempty.
Qed.

Lemma rowEntries_later_keys (finalHeaders : list jsstring) (activeColIndices : list nat)
    (row : list Cell) (idx : nat) (key : jsstring) :
  length finalHeaders = length activeColIndices ->
  (forall j, idx < j -> finalHeaders !! j <> Some key) ->
  key ∉ (drop (S idx) (rowEntries finalHeaders activeColIndices row)).*1.
Proof.
  intros Hlen Hlater Hin.
  apply list_elem_of_lookup in Hin as [j Hj].
  rewrite list_lookup_fmap in Hj.
  apply fmap_Some in Hj as ([k v] & Hkv & Hkey). cbn [fst] in Hkey.
  rewrite lookup_drop, rowEntries_lookup in Hkv.
  apply fmap_Some in Hkv as (c & Ec & [= Hk _]).
  apply lookup_lt_Some in Ec. rewrite <- Hlen in Ec.
  destruct (lookup_lt_is_Some_2 _ _ Ec) as [k' Hk'].
  change (S idx + j) with (S (idx + j)) in Hk'.
  rewrite Hk' in Hk. simpl in Hk. subst k k'.
  apply (Hlater (S (idx + j))); [lia | done].
Qed.

(** X10: the own property of a row object under a column name other
    than [__proto__] is the stored value of that column's raw cell: the
    cell itself when it is filled, [null] otherwise.  When several
    columns have the same name, it is that of the rightmost of them. *)
Theorem row_lookup (sheetNames0 : list jsstring) (targetSheet : jsstring)
    (rawRows : list (list Cell)) (r idx colIndex : nat) (raw : list Cell)
    (key : jsstring) :
  let h := headerRowIndex (scanHeader rawRows) in
  let rawHeaders := default [] (rawRows !! h) in
  let headers := headersOf rawHeaders in
  let dataRows := dataRowsOf rawRows h in
  let activeColIndices := activeColIndicesOf headers rawHeaders dataRows in
  let t := parseRows sheetNames0 targetSheet rawRows in
  key <> js "__proto__" ->
  dataRows !! r = Some raw ->
  activeColIndices !! idx = Some colIndex ->
  map name (columns t) !! idx = Some key ->
  (forall j, idx < j -> map name (columns t) !! j <> Some key) ->
  exists obj, rows t !! r = Some obj
              /\ properties obj !! key
                 = Some (if isFilled (cellAt raw colIndex)
                         then cellAt raw colIndex else CNull).
Proof.
  intros h rawHeaders headers dataRows activeColIndices t Hproto Hraw Hactive Hkey Hlater.
  unfold t in Hkey, Hlater. rewrite parseRows_names in Hkey, Hlater.
  fold h rawHeaders headers dataRows activeColIndices in Hkey, Hlater.
  set (finalHeaders := finalHeadersOf headers activeColIndices) in *.
  exists (rowObject finalHeaders activeColIndices raw). split.
  - unfold t, parseRows. cbn [rows].
    fold h rawHeaders headers dataRows activeColIndices finalHeaders.
    change (map ?f ?l) with (f <$> l).
    by rewrite list_lookup_fmap, Hraw.
  - rewrite rowObject_entries.
    assert (Hentry : rowEntries finalHeaders activeColIndices raw !! idx
                     = Some (key, stored (cellAt raw colIndex))).
    { by rewrite rowEntries_lookup, Hactive, Hkey. }
    rewrite <- (take_drop_middle _ _ _ Hentry).
    apply writes_lookup_last; [exact Hproto|].
    apply rowEntries_later_keys; [apply finalHeadersOf_length | exact Hlater].
Qed.

(** ** Columns *)

Lemma columnsOf_lookup (finalHeaders : list jsstring) (activeColIndices : list nat)
    (dataRows : list (list Cell)) (idx : nat) (col : Column) :
  length finalHeaders = length activeColIndices ->
  columnsOf finalHeaders activeColIndices dataRows !! idx = Some col ->
  exists colIndex,
    activeColIndices !! idx = Some colIndex
    /\ finalHeaders !! idx = Some (name col)
    /\ type col = inferColumnType (columnValues dataRows colIndex)
    /\ sample col = take 5 (columnValues dataRows colIndex).
Proof.
  intros Hlen Hcol. unfold columnsOf in Hcol.
  rewrite list_lookup_imap in Hcol.
  apply fmap_Some in Hcol as (key & Hkey & ->). cbn [name type sample].
  pose proof (lookup_lt_Some _ _ _ Hkey) as Hidx. rewrite Hlen in Hidx.
  destruct (lookup_lt_is_Some_2 _ _ Hidx) as [c Hc].
  exists c. rewrite Hc. by repeat split.
Qed.

Lemma columnValues_filled (dataRows : list (list Cell)) (colIndex : nat) :
  Forall (fun v => isFilled v = true) (columnValues dataRows colIndex).
Proof.
  apply Forall_forall. intros v [Hv _]%list_elem_of_filter. by apply Is_true_true.
Qed.

Lemma columnValues_nonempty (dataRows : list (list Cell)) (colIndex : nat) :
  existsb (fun row => isFilled (cellAt row colIndex)) dataRows = true ->
  columnValues dataRows colIndex <> [].
Proof.
  intros (row & Hrow & Hfilled)%existsb_exists Hnil.
  apply list_elem_of_In in Hrow.
  eapply (filter_nil_not_elem_of _ _ (cellAt row colIndex)); [exact Hnil| |].
  - by apply Is_true_true.
  - apply list_elem_of_fmap. by exists row.
Qed.

(** X11: the sample of a column holds at most five values, all of them
    filled, and a column without sample values has the type Text. *)
Theorem column_sample (sheetNames0 : list jsstring) (targetSheet : jsstring)
    (rawRows : list (list Cell)) (col : Column) :
  col ∈ columns (parseRows sheetNames0 targetSheet rawRows) ->
  length (sample col) <= 5
  /\ Forall (fun v => isFilled v = true) (sample col)
  /\ (sample col = [] -> type col = Text).
Proof.
  intros [idx Hcol]%list_elem_of_lookup.
  unfold parseRows in Hcol. cbn [columns] in Hcol.
  apply columnsOf_lookup in Hcol as (colIndex & _ & _ & -> & ->);
    [|apply finalHeadersOf_length].
  split; [|split].
  - rewrite length_take. lia.
  - apply Forall_take, columnValues_filled.
  - intros Hnil. destruct (columnValues _ colIndex) as [|v values]; [reflexivity|].
    discriminate Hnil.
Qed.

(** X12: a column is there for its header or for its data.  Column
    [idx] of the table comes from an active raw index below the length
    of the header row and is named after the header cell at that index;
    when that header cell is blank, so that the name is a placeholder,
    the column has at least one sample value. *)
Theorem column_has_header_or_data (sheetNames0 : list jsstring) (targetSheet : jsstring)
    (rawRows : list (list Cell)) (idx : nat) (col : Column) :
  let rawHeaders := default [] (rawRows !! headerRowIndex (scanHeader rawRows)) in
  columns (parseRows sheetNames0 targetSheet rawRows) !! idx = Some col ->
  exists colIndex h,
    rawHeaders !! colIndex = Some h
    /\ name col = headerName colIndex h
    /\ (isFilled h = true \/ sample col <> []).
Proof.
  intros rawHeaders Hcol.
  unfold parseRows in Hcol. cbn [columns] in Hcol.
  fold rawHeaders in Hcol.
  set (headers := headersOf rawHeaders) in *.
  set (dataRows := dataRowsOf rawRows _) in *.
  set (activeColIndices := activeColIndicesOf headers rawHeaders dataRows) in *.
  apply columnsOf_lookup in Hcol as (colIndex & Hactive & Hname & _ & Hsample);
    [|apply finalHeadersOf_length].
  apply list_elem_of_lookup_2 in Hactive as Hin.
  pose proof (activeColIndicesOf_bound _ _ _ _ Hin) as Hbound.
  unfold headers, headersOf in Hbound. rewrite length_imap in Hbound.
  destruct (lookup_lt_is_Some_2 _ _ Hbound) as [h Hh].
  exists colIndex, h. split; [exact Hh|]. split.
  - unfold finalHeadersOf in Hname.
    change (map ?f ?l) with (f <$> l) in Hname.
    rewrite list_lookup_fmap, Hactive in Hname. simpl in Hname.
    unfold headers, headersOf in Hname.
    rewrite list_lookup_imap, Hh in Hname. simpl in Hname. by injection Hname.
  - unfold activeColIndices in Hin. rewrite activeColIndicesOf_seq in Hin.
    apply list_elem_of_filter in Hin as [Hact _]. apply Is_true_true in Hact.
    unfold isActive in Hact. apply orb_true_iff in Hact as [Hhead | Hdata].
    + left. unfold cellAt in Hhead. by rewrite Hh in Hhead.
    + right. rewrite Hsample. intros Hnil.
      apply (columnValues_nonempty dataRows colIndex Hdata).
      destruct (columnValues dataRows colIndex); [reflexivity | discriminate Hnil].
Qed.

(** ** Column names and the header row *)

Lemma lookups_seq {A : Type} (d : A) (l : list A) :
  (fun i => default d (l !! i)) <$> seq 0 (length l) = l.
Proof.
  apply list_eq. intros i. rewrite list_lookup_fmap.
  destruct (decide (i < length l)) as [Hi|Hi].
  - rewrite lookup_seq_lt by done. simpl.
    destruct (lookup_lt_is_Some_2 _ _ Hi) as [x Hx]. by rewrite Hx.
  - rewrite lookup_seq_ge by lia. simpl. symmetry. apply lookup_ge_None. lia.
Qed.

(** Picking the elements that pass a test by their index is filtering. *)
Lemma filter_by_index {A : Type} (P : A -> bool) (d : A) (l : list A) :
  (fun i => default d (l !! i))
    <$> filter (fun i => P (default d (l !! i))) (seq 0 (length l))
  = filter (fun x => P x) l.
Proof.
  induction l as [|x l IH] using rev_ind; [reflexivity|].
  rewrite length_app, Nat.add_1_r, seq_S, !filter_app, fmap_app. simpl.
  f_equal.
  - rewrite <- IH.
    rewrite (filter_ext_elem (fun i => P (default d ((l ++ [x]) !! i)))
                             (fun i => P (default d (l !! i)))).
    + apply list_fmap_ext. intros k i Hk.
      apply list_elem_of_lookup_2, list_elem_of_filter in Hk as [_ Hi].
      apply elem_of_seq in Hi. by rewrite lookup_app_l by lia.
    + intros i Hi. apply elem_of_seq in Hi. by rewrite lookup_app_l by lia.
  - rewrite !filter_cons, !filter_nil.
    rewrite lookup_app_r by lia. rewrite Nat.sub_diag. simpl.
    destruct (P x); simpl; [|reflexivity].
    rewrite lookup_app_r by lia. by rewrite Nat.sub_diag.
Qed.

Lemma headersOf_lookup (rawHeaders : list Cell) (i : nat) (h : Cell) :
  rawHeaders !! i = Some h -> headersOf rawHeaders !! i = Some (headerName i h).
Proof. intros Hh. unfold headersOf. by rewrite list_lookup_imap, Hh. Qed.

Lemma headersOf_length (rawHeaders : list Cell) :
  length (headersOf rawHeaders) = length rawHeaders.
Proof. apply length_imap. Qed.

(** X13: the column names follow the header row.  Position by
    position and in left-to-right order they are the header names of
    the active positions, those with a filled header cell or a filled
    cell in a retained row: the trimmed text of a filled header cell,
    the placeholder of a blank one.  So they are the header names with
    those of inactive columns removed, and every filled header cell has
    its column, named by its trimmed text. *)
Theorem column_names_follow_header (sheetNames0 : list jsstring) (targetSheet : jsstring)
    (rawRows : list (list Cell)) :
  let h := headerRowIndex (scanHeader rawRows) in
  let rawHeaders := default [] (rawRows !! h) in
  let dataRows := dataRowsOf rawRows h in
  let names := map name (columns (parseRows sheetNames0 targetSheet rawRows)) in
  names
  = map (fun i => let c := cellAt rawHeaders i in
                  if isFilled c then JsString.trim (toString c)
                  else js "Column_" ++ JsString.ofNat (i + 1))
        (filter (fun i => isFilled (cellAt rawHeaders i) = true
                          \/ Exists (fun row => isFilled (cellAt row i) = true) dataRows)
                (seq 0 (length rawHeaders)))
  /\ names `sublist_of` headersOf rawHeaders
  /\ (forall h, h ∈ rawHeaders -> isFilled h = true ->
                JsString.trim (toString h) ∈ names).
Proof.
  intros h rawHeaders dataRows names.
  split; [apply parseRows_names_by_position|].
  unfold names. rewrite parseRows_names.
  fold h rawHeaders dataRows.
  set (headers := headersOf rawHeaders).
  rewrite activeColIndicesOf_seq. unfold finalHeadersOf.
  change (map ?f ?l) with (f <$> l). split.
  - transitivity ((fun i => default [] (headers !! i)) <$> seq 0 (length headers)).
    + apply fmap_sublist, sublist_filter.
    + by rewrite lookups_seq.
  - intros c [i Hi]%list_elem_of_lookup Hfilled.
    apply list_elem_of_fmap. exists i. split.
    + unfold headers. rewrite (headersOf_lookup _ _ _ Hi). simpl.
      by rewrite headerName_cases, Hfilled.
    + apply list_elem_of_filter. split.
      * apply Is_true_true. unfold isActive, cellAt. by rewrite Hi; simpl; rewrite Hfilled.
      * apply elem_of_seq. unfold headers. rewrite headersOf_length.
        apply lookup_lt_Some in Hi. lia.
Qed.

Lemma keepRow_blank (row : list Cell) :
  Forall (fun c => isFilled c = false) row -> keepRow row = false.
Proof.
  intros Hblank. unfold keepRow.
  assert (filter (fun cell => isFilled cell) row = []) as ->; [|reflexivity].
  induction Hblank as [|c row Hc _ IH]; [reflexivity|].
  rewrite filter_cons, Hc. exact IH.
Qed.

(** X14: a sheet that has rows but no filled cell parses, without an
    error, to a table with no column and no row. *)
Theorem blank_sheet_gives_empty_table (sheetNames0 : list jsstring)
    (targetSheet : jsstring) (rawRows : list (list Cell)) :
  Forall (fun row => Forall (fun c => isFilled c = false) row) rawRows ->
  let t := parseRows sheetNames0 targetSheet rawRows in
  columns t = [] /\ rows t = [] /\ preview t = [] /\ rowCount t = 0.
Proof.
  intros Hblank t.
  set (h := headerRowIndex (scanHeader rawRows)).
  set (rawHeaders := default [] (rawRows !! h)).
  assert (Hdata : dataRowsOf rawRows h = []).
  { unfold dataRowsOf. apply Forall_drop with (n := h + 1) in Hblank.
    induction Hblank as [|row rest Hrow _ IH]; [reflexivity|].
    by rewrite filter_cons, (keepRow_blank row Hrow). }
  assert (Hheaders : Forall (fun c => isFilled c = false) rawHeaders).
  { unfold rawHeaders. destruct (rawRows !! h) as [row|] eqn:E; simpl; [|constructor].
    rewrite Forall_forall in Hblank. apply Hblank. by eapply list_elem_of_lookup_2. }
  assert (Hactive : activeColIndicesOf (headersOf rawHeaders) rawHeaders [] = []).
  { rewrite activeColIndicesOf_seq.
    rewrite (filter_ext_elem _ (fun _ => false)).
    - induction (seq 0 _) as [|i l IH]; [reflexivity|]. by rewrite filter_cons.
    - intros i Hi. apply elem_of_seq in Hi. rewrite headersOf_length in Hi.
      unfold isActive, cellAt. simpl. rewrite orb_false_r.
      destruct (lookup_lt_is_Some_2 rawHeaders i) as [c Hc]; [lia|].
      rewrite Hc. simpl. rewrite Forall_forall in Hheaders.
      apply Hheaders. by eapply list_elem_of_lookup_2. }
  unfold t, parseRows. cbn [columns rows preview rowCount].
  fold h rawHeaders. rewrite Hdata, Hactive. by repeat split.
Qed.

(** X15: when no row is retained, as for a sheet that is only a header
    row, the columns are the filled cells of the header row, in order,
    named by their trimmed texts, each of type Text and with an empty
    sample. *)
Theorem header_only_columns (sheetNames0 : list jsstring) (targetSheet : jsstring)
    (rawRows : list (list Cell)) :
  let h := headerRowIndex (scanHeader rawRows) in
  let rawHeaders := default [] (rawRows !! h) in
  let t := parseRows sheetNames0 targetSheet rawRows in
  dataRowsOf rawRows h = [] ->
  map name (columns t)
  = map (fun c => JsString.trim (toString c)) (filter (fun c => isFilled c) rawHeaders)
  /\ Forall (fun col => type col = Text /\ sample col = []) (columns t)
  /\ rows t = [].
Proof.
  intros h rawHeaders t Hdata. split; [|split].
  - unfold t. rewrite parseRows_names. fold h rawHeaders. rewrite Hdata.
    rewrite activeColIndicesOf_seq, headersOf_length. unfold finalHeadersOf.
    change (map ?f ?l) with (f <$> l).
    rewrite <- (filter_by_index isFilled CUndefined rawHeaders).
    rewrite <- list_fmap_compose.
    rewrite (filter_ext_elem (fun i => isActive rawHeaders [] i)
               (fun i => isFilled (default CUndefined (rawHeaders !! i)))).
    + apply list_fmap_ext. intros k i Hk.
      apply list_elem_of_lookup_2, list_elem_of_filter in Hk as [Hfilled Hi].
      apply Is_true_true in Hfilled. apply elem_of_seq in Hi.
      destruct (lookup_lt_is_Some_2 rawHeaders i) as [c Hc]; [lia|].
      rewrite (headersOf_lookup _ _ _ Hc). simpl. rewrite Hc in Hfilled |- *. simpl in *.
      by rewrite headerName_cases, Hfilled.
    + intros i _. unfold isActive, cellAt. simpl. apply orb_false_r.
  - apply Forall_forall. intros col [idx Hcol]%list_elem_of_lookup.
    unfold t, parseRows in Hcol. cbn [columns] in Hcol. fold h in Hcol.
    rewrite Hdata in Hcol.
    apply columnsOf_lookup in Hcol as (colIndex & _ & _ & -> & ->);
      [|apply finalHeadersOf_length].
    by split.
  - unfold t, parseRows. cbn [rows]. fold h. by rewrite Hdata.
Qed.

End WithHost.

End SheetParserMore.

(** * More on inferColumnType *)

Module InferenceMore.
Import SheetParser SheetParserTerms SheetParserProps.

Section WithHost.

Context `{host : Host}.

(** The type of a non-empty list of values, from the counts alone. *)
Lemma inferColumnType_by_counts (values : list Cell) :
  values <> [] ->
  inferColumnType values
  = if bool_decide (6 * length values <= 10 * countOf PercentageValue values)
    then Percentage
    else if bool_decide (6 * length values <= 10 * countOf CurrencyValue values)
    then Currency
    else if bool_decide (6 * length values <= 10 * countOf DateValue values)
    then Date
    else if bool_decide (6 * length values
                         <= 10 * (countOf NumberValue values + countOf CurrencyValue values))
    then Number
    else if bool_decide (distinctTexts values <= 20) then Category
    else Text.
Proof.
  intros Hne. destruct values as [|raw rest]; [congruence|].
  rewrite inferColumnType_unfold. cbv zeta.
  rewrite countValues_spec, uniqueKeys_size.
  cbn [dateCount numberCount currencyCount percentageCount].
  by rewrite !reaches_decide by (simpl; lia).
Qed.

(** Every value is in one class, so the four counts fit in the length. *)
Lemma counts_fit (values : list Cell) :
  countOf PercentageValue values + countOf CurrencyValue values
  + countOf NumberValue values + countOf DateValue values <= length values.
Proof.
  induction values as [|raw values IH]; [unfold countOf; simpl; lia|].
  rewrite !countOf_cons. simpl.
  destruct (classify raw); repeat case_decide; try congruence; lia.
Qed.

(** X16: for a non-empty list the three single thresholds exclude one
    another, so the type is Percentage exactly when the percentage share
    reaches 0.6, Currency exactly when the currency share does, Date
    exactly when the date share does, and Number exactly when the number
    and currency shares together reach 0.6 while the currency share alone
    does not.  The order of the tests only matters between Currency and
    Number. *)
Theorem inferColumnType_decided_by_shares (values : list Cell) :
  values <> [] ->
  let reach k := 6 * length values <= 10 * k in
  (inferColumnType values = Percentage <-> reach (countOf PercentageValue values))
  /\ (inferColumnType values = Currency <-> reach (countOf CurrencyValue values))
  /\ (inferColumnType values = Date <-> reach (countOf DateValue values))
  /\ (inferColumnType values = Number
      <-> reach (countOf NumberValue values + countOf CurrencyValue values)
          /\ ~ reach (countOf CurrencyValue values)).
Proof.
  intros Hne reach. unfold reach.
  rewrite (inferColumnType_by_counts values Hne).
  pose proof (counts_fit values) as Hfit.
  assert (Hpos : 0 < length values) by (destruct values; [congruence | simpl; lia]).
  repeat case_bool_decide; repeat split; intros; try discriminate; try lia; try reflexivity.
Qed.

Lemma remove_dups_length {A : Type} `{EqDecision A} (l : list A) :
  length (remove_dups l) <= length l.
Proof.
  induction l as [|x l IH]; simpl; [lia|].
  destruct (decide_rel elem_of x l); simpl; lia.
Qed.

(** X17: the type Text needs many values: a list typed Text is empty or
    has more than 20 distinct trimmed, lower-cased texts, hence more than
    20 values; a list of one to twenty values is never typed Text. *)
Theorem text_needs_many_values (values : list Cell) :
  inferColumnType values = Text ->
  values = [] \/ (20 < distinctTexts values /\ 20 < length values).
Proof.
  intros Htext. destruct (decide (values = [])) as [Hnil|Hne]; [by left|]. right.
  rewrite (inferColumnType_by_counts values Hne) in Htext.
  repeat case_bool_decide; try discriminate.
  assert (distinctTexts values <= length values).
  { unfold distinctTexts.
    etransitivity; [apply remove_dups_length|]. by rewrite length_map. }
  lia.
Qed.

(** X23: one more value of the kind a column is typed by leaves the type
    as it is: a percentage added to a Percentage column, a currency
    amount added to a Currency column, a date added to a Date column, a
    plain number added to a Number column. *)
Theorem inferColumnType_more_of_the_same (raw : Cell) (values : list Cell) :
  (inferColumnType values = Percentage /\ classify raw = PercentageValue
   \/ inferColumnType values = Currency /\ classify raw = CurrencyValue
   \/ inferColumnType values = Date /\ classify raw = DateValue
   \/ inferColumnType values = Number /\ classify raw = NumberValue) ->
  inferColumnType (raw :: values) = inferColumnType values.
Proof.
  intros Hcase.
  assert (Hne : values <> []).
  { intros ->. destruct Hcase as [[H _] | [[H _] | [[H _] | [H _]]]]; discriminate H. }
  assert (Hne' : raw :: values <> []) by discriminate.
  pose proof (counts_fit values) as Hfit.
  rewrite (inferColumnType_by_counts _ Hne) in Hcase |- *.
  rewrite (inferColumnType_by_counts _ Hne').
  rewrite !countOf_cons. cbn [length].
  set (p := countOf PercentageValue values) in *.
  set (c := countOf CurrencyValue values) in *.
  set (n := countOf NumberValue values) in *.
  set (d := countOf DateValue values) in *.
  set (t := length values) in *.
  set (u := bool_decide (distinctTexts values <= 20)) in *.
  set (u' := bool_decide (distinctTexts (raw :: values) <= 20)).
  clearbody p c n d t u u'.
  destruct Hcase as [[H E] | [[H E] | [[H E] | [H E]]]]; rewrite E; clear E;
    repeat (match goal with
            | |- context [decide ?P] => destruct (decide P); try congruence
            end);
    repeat case_bool_decide; try discriminate H; try (destruct u; discriminate H);
    try reflexivity; lia.
Qed.

(** X24: a column with a single value takes the type of that value, and
    Category when the value has none of the four shapes. *)
Theorem inferColumnType_single (raw : Cell) :
  inferColumnType [raw]
  = match classify raw with
    | PercentageValue => Percentage
    | CurrencyValue => Currency
    | NumberValue => Number
    | DateValue => Date
    | Unclassified => Category
    end.
Proof.
  rewrite inferColumnType_by_counts by discriminate.
  rewrite !countOf_cons. unfold countOf, distinctTexts. cbn [length filter map].
  assert (Hone : length (remove_dups [toLowerCase (JsString.trim (toString raw))]) = 1)
    by reflexivity.
  rewrite Hone.
  destruct (classify raw);
    repeat (match goal with
            | |- context [decide ?P] => destruct (decide P); try congruence
            end);
    repeat case_bool_decide; try reflexivity; simpl in *; lia.
Qed.

(** ** White space around a value *)

Lemma trimStart_head (s : jsstring) :
  JsString.trimStart s = []
  \/ exists c s', JsString.trimStart s = c :: s' /\ JsString.isWhiteSpace c = false.
Proof.
  induction s as [|c s IH]; simpl; [by left|].
  destruct (JsString.isWhiteSpace c) eqn:Ec; [exact IH|].
  right. by exists c, s.
Qed.

Lemma trimStart_fixed (c : N) (s : jsstring) :
  JsString.isWhiteSpace c = false -> JsString.trimStart (c :: s) = c :: s.
Proof. intros Hc. simpl. by rewrite Hc. Qed.

Lemma trimStart_last (s : jsstring) (c : N) :
  JsString.isWhiteSpace c = false ->
  exists s', JsString.trimStart (s ++ [c]) = s' ++ [c].
Proof.
  intros Hc. induction s as [|u s IH]; simpl.
  - rewrite Hc. by exists [].
  - destruct (JsString.isWhiteSpace u); [exact IH|]. by exists (u :: s).
Qed.

(** What [trim] gives neither starts nor ends with white space. *)
Lemma trim_ends (s : jsstring) :
  JsString.trim s = []
  \/ exists c c' t t',
       JsString.isWhiteSpace c = false /\ JsString.isWhiteSpace c' = false
       /\ JsString.trim s = c :: t /\ JsString.trim s = t' ++ [c'].
Proof.
  unfold JsString.trim, JsString.trimEnd.
  destruct (trimStart_head s) as [-> | (c & a & -> & Hc)]; [by left|].
  right. simpl rev.
  destruct (trimStart_last (rev a) c Hc) as [l Hl].
  destruct (trimStart_head (rev a ++ [c])) as [E | (c' & b & E & Hc')].
  { rewrite Hl in E. by destruct l. }
  exists c, c', (rev l), (rev b). repeat split; try done.
  - by rewrite Hl, rev_app_distr.
  - by rewrite E.
Qed.

Lemma trim_idempotent (s : jsstring) : JsString.trim (JsString.trim s) = JsString.trim s.
Proof.
  destruct (trim_ends s) as [-> | (c & c' & t & t' & Hc & Hc' & Ht & Ht')];
    [reflexivity|].
  unfold JsString.trim at 1. rewrite Ht at 1. rewrite (trimStart_fixed c t Hc).
  unfold JsString.trimEnd. rewrite <- Ht, Ht'.
  rewrite rev_app_distr. simpl. rewrite Hc'.
  assert (c' :: rev t' = rev (t' ++ [c'])) as -> by (by rewrite rev_app_distr).
  apply rev_involutive.
Qed.

Lemma trimmedCell_text (c : Cell) :
  JsString.trim (toString (trimmedCell c)) = JsString.trim (toString c).
Proof. destruct c; simpl; try reflexivity. apply trim_idempotent. Qed.

Lemma trimmedCell_classify (c : Cell) : classify (trimmedCell c) = classify c.
Proof.
  unfold classify. rewrite trimmedCell_text. by destruct c.
Qed.

Lemma countOf_trimmed (k : ValueClass) (values : list Cell) :
  countOf k (map trimmedCell values) = countOf k values.
Proof.
  induction values as [|raw values IH]; [reflexivity|].
  change (map trimmedCell (raw :: values)) with (trimmedCell raw :: map trimmedCell values).
  by rewrite !countOf_cons, trimmedCell_classify, IH.
Qed.

(** X18: white space around the text of a cell does not count: trimming
    every string value beforehand changes neither which cells are filled
    nor the inferred type. *)
Theorem inferColumnType_ignores_padding (values : list Cell) :
  Forall (fun c => isFilled (trimmedCell c) = isFilled c) values
  /\ inferColumnType (map trimmedCell values) = inferColumnType values.
Proof.
  split.
  - apply Forall_forall. intros c _. unfold isFilled.
    rewrite trimmedCell_text. by destruct c.
  - destruct (decide (values = [])) as [->|Hne]; [reflexivity|].
    assert (Hne' : map trimmedCell values <> []) by (by destruct values).
    rewrite (inferColumnType_by_counts _ Hne'), (inferColumnType_by_counts _ Hne).
    rewrite !countOf_trimmed, length_map.
    assert (distinctTexts (map trimmedCell values) = distinctTexts values) as ->;
      [|reflexivity].
    unfold distinctTexts. rewrite map_map. do 2 f_equal.
    apply map_ext. intros c. by rewrite trimmedCell_text.
Qed.

End WithHost.

End InferenceMore.

(** * The value shapes exclude one another *)

Module ShapeProps.
Import Regex RegexTerms RegexProps.

Lemma within_sound (q : N -> bool) (r : t) (w : jsstring) :
  within q r -> Lang r w -> Forall (fun c => q c = true) w.
Proof.
  intros Hq Hw. induction Hw; simpl in Hq.
  - constructor.
  - constructor; [by apply Hq | constructor].
  - destruct Hq as [Hr Hs]. apply Forall_app. split; auto.
  - destruct Hq as [Hr _]. auto.
  - destruct Hq as [_ Hs]. auto.
  - constructor.
  - apply Forall_app. split; auto.
Qed.

Lemma mustHave_sound (q : N -> bool) (r : t) (w : jsstring) :
  mustHave q r -> Lang r w -> Exists (fun c => q c = true) w.
Proof.
  intros Hq Hw. induction Hw; simpl in Hq; try done.
  - apply Exists_cons_hd. by apply Hq.
  - apply Exists_app. destruct Hq as [Hr|Hs]; [left | right]; auto.
  - destruct Hq as [Hr _]. auto.
  - destruct Hq as [_ Hs]. auto.
Qed.

(** A pattern that does not match the empty string has only non-empty
    matches. *)
Lemma not_nullable_cons (r : t) (w : jsstring) :
  nullable r = false -> Lang r w -> exists c w', w = c :: w'.
Proof.
  intros Hnull Hw. destruct w as [|c w']; [|by exists c, w'].
  apply nullable_spec in Hw. congruence.
Qed.

(** ** The character classes of the source patterns *)

Ltac open_pattern :=
  cbv [within mustHave
       Patterns.percentage Patterns.currency Patterns.number Patterns.datePatterns
       Patterns.month Patterns.fraction Patterns.minus Patterns.dot
       Patterns.digitOrComma Patterns.currencyGlyph Patterns.dateSep Patterns.comma
       Seq AnyOf Opt Plus Between Exactly UpTo Unit UnitCI OneOf Lit LitCI digit space
       map JsString.lit Nat.sub].

Ltac class_facts :=
  unfold percentageChar, numberChar, plainNumberChar, dateChar, isPercentSign, isGlyph,
    isDateSeparator, isAsciiLetter, isDigit, JsString.isWhiteSpace,
    JsString.asciiLowerUnit in *;
  cbn [existsb] in *;
  repeat match goal with
    | H : context [N_of_ascii ?a] |- _ =>
        let v := eval vm_compute in (N_of_ascii a) in
        change (N_of_ascii a) with v in H
    end;
  repeat match goal with
    | H : context [if ?b then _ else _] |- _ => destruct b eqn:?
    end;
  rewrite ?orb_true_iff, ?andb_true_iff, ?orb_false_iff, ?andb_false_iff,
    ?N.eqb_eq, ?N.eqb_neq, ?N.leb_le, ?N.leb_gt in *;
  lia.

Ltac class_incl := let c := fresh "c" in let Hc := fresh "Hc" in intros c Hc; class_facts.

Lemma percentage_within : within percentageChar Patterns.percentage.
Proof. open_pattern; repeat split; class_incl. Qed.

Lemma number_within : within numberChar Patterns.number.
Proof. open_pattern; repeat split; class_incl. Qed.

Lemma within_Seq (q : N -> bool) (rs : list t) :
  Forall (within q) rs -> within q (Seq rs).
Proof.
  induction 1 as [|r rs Hr Hrs IH]; [exact I|].
  destruct rs as [|r' rs]; [exact Hr|]. split; [exact Hr | exact IH].
Qed.

Lemma within_AnyOf (q : N -> bool) (rs : list t) :
  Forall (within q) rs -> within q (AnyOf rs).
Proof.
  induction 1 as [|r rs Hr Hrs IH]; [exact I|].
  destruct rs as [|r' rs]; [exact Hr|]. split; [exact Hr | exact IH].
Qed.

Lemma within_Exactly (q : N -> bool) (n : nat) (r : t) :
  within q r -> within q (Exactly n r).
Proof. intros Hr. induction n as [|n IH]; simpl; [exact I | by split]. Qed.

Lemma within_UpTo (q : N -> bool) (n : nat) (r : t) :
  within q r -> within q (UpTo n r).
Proof. intros Hr. induction n as [|n IH]; simpl; [exact I | by repeat split]. Qed.

Lemma within_Between (q : N -> bool) (n m : nat) (r : t) :
  within q r -> within q (Between n m r).
Proof. intros Hr. split; [by apply within_Exactly | by apply within_UpTo]. Qed.

Lemma within_Plus (q : N -> bool) (r : t) : within q r -> within q (Plus r).
Proof. intros Hr. by split. Qed.

Lemma within_Opt (q : N -> bool) (r : t) : within q r -> within q (Opt r).
Proof. intros Hr. by split. Qed.

(** Under the [i] flag a Latin letter of a pattern matches Latin letters
    only. *)
Lemma unitCI_letter (a x : N) :
  isAsciiLetter a = true ->
  (JsString.asciiLowerUnit x =? JsString.asciiLowerUnit a)%N = true ->
  isAsciiLetter x = true.
Proof.
  unfold isAsciiLetter, JsString.asciiLowerUnit. intros Ha Hx.
  destruct ((65 <=? x) && (x <=? 90))%N eqn:Ex, ((65 <=? a) && (a <=? 90))%N eqn:Ea;
    rewrite ?orb_true_iff, ?andb_true_iff, ?orb_false_iff, ?andb_false_iff,
      ?N.eqb_eq, ?N.leb_le, ?N.leb_gt in *; lia.
Qed.

Lemma within_LitCI (q : N -> bool) (s : string) :
  (forall c, isAsciiLetter c = true -> q c = true) ->
  Forall (fun a => isAsciiLetter a = true) (JsString.lit s) ->
  within q (LitCI s).
Proof.
  intros Hq Hs. unfold LitCI. apply within_Seq.
  induction Hs as [|a l Ha _ IH]; simpl; constructor; [|exact IH].
  intros x Hx. apply Hq. by apply (unitCI_letter a).
Qed.

Lemma digit_dateChar : within dateChar digit.
Proof. intros c Hc. unfold dateChar. by rewrite Hc. Qed.

Lemma space_dateChar : within dateChar space.
Proof. intros c Hc. unfold dateChar. rewrite Hc. by rewrite !orb_true_r. Qed.

Lemma letter_dateChar (c : N) : isAsciiLetter c = true -> dateChar c = true.
Proof. intros Hc. unfold dateChar. rewrite Hc. by rewrite !orb_true_r. Qed.

Lemma dateSep_dateChar : within dateChar Patterns.dateSep.
Proof.
  intros c Hc. unfold dateChar, isDateSeparator.
  change (existsb (N.eqb c) [47; 45]%N = true) in Hc. by rewrite Hc, !orb_true_r.
Qed.

Lemma comma_dateChar : within dateChar (Unit 44).
Proof.
  intros c Hc. unfold dateChar. apply N.eqb_eq in Hc as <-. reflexivity.
Qed.

Lemma month_dateChar : within dateChar Patterns.month.
Proof.
  unfold Patterns.month. apply within_AnyOf.
  repeat (apply Forall_cons; split;
          [apply within_LitCI; [exact letter_dateChar | by repeat constructor]|]).
  constructor.
Qed.

Lemma dates_within : Forall (within dateChar) Patterns.datePatterns.
Proof.
  unfold Patterns.datePatterns.
  repeat match goal with
    | |- Forall _ [] => apply Forall_nil_2
    | |- Forall _ (_ :: _) => apply Forall_cons; split
    | |- within _ (Seq _) => apply within_Seq
    | |- within _ (Between _ _ _) => apply within_Between
    | |- within _ (Exactly _ _) => apply within_Exactly
    | |- within _ (Plus _) => apply within_Plus
    | |- within _ (Opt _) => apply within_Opt
    | |- within _ digit => exact digit_dateChar
    | |- within _ space => exact space_dateChar
    | |- within _ Patterns.dateSep => exact dateSep_dateChar
    | |- within _ (Unit 44) => exact comma_dateChar
    | |- within _ Patterns.month => exact month_dateChar
    end.
Qed.

Lemma percentage_mustHave : mustHave isPercentSign Patterns.percentage.
Proof. open_pattern. right; right; right. class_incl. Qed.

Lemma currency_mustHave : mustHave isGlyph Patterns.currency.
Proof.
  open_pattern. split.
  - right; left. class_incl.
  - right; right; right. class_incl.
Qed.

(** After its first character a plain number has digits, commas and dots
    only. *)
Lemma number_tail (w : jsstring) :
  Lang Patterns.number w -> Forall (fun c => plainNumberChar c = true) (tail w).
Proof.
  unfold Patterns.number. cbv [Seq].
  inversion 1 as [| |r' s' u v Hu Hv| | | |]; subst.
  assert (Hv' : Forall (fun c => plainNumberChar c = true) v).
  { eapply within_sound; [|exact Hv]. open_pattern; repeat split; class_incl. }
  inversion Hu as [| | |r' s' u' Hm|r' s' u' He| |]; subst.
  - inversion Hm; subst. exact Hv'.
  - inversion He; subst. simpl. by apply Forall_tail.
Qed.

Lemma Forall_Exists_absurd (q q' : N -> bool) (w : jsstring) :
  (forall c, q c = true -> q' c = true -> False) ->
  Forall (fun c => q c = true) w -> Exists (fun c => q' c = true) w -> False.
Proof.
  intros Hqq' Hall Hex. apply Exists_exists in Hex as (c & Hc & Hq').
  rewrite Forall_forall in Hall. eauto.
Qed.

(** No date pattern matches a string that a plain number matches. *)
Lemma date_not_number (p : t) (w : jsstring) :
  p ∈ Patterns.datePatterns -> Lang p w -> Lang Patterns.number w -> False.
Proof.
  intros Hp Hdate Hnum.
  pose proof (number_tail w Hnum) as Htail.
  pose proof (within_sound _ _ _ number_within Hnum) as Hall.
  unfold Patterns.datePatterns in Hp.
  repeat (apply elem_of_cons in Hp as [-> | Hp]); [| | | |by apply elem_of_nil in Hp].
  - cbv [Seq] in Hdate. inversion Hdate as [| |r' s' u v Hu Hv| | | |]; subst.
    destruct (fun H => not_nullable_cons _ _ H Hu) as (c & u' & ->); [reflexivity|].
    simpl in Htail.
    apply Forall_app in Htail as [_ Htail].
    eapply (Forall_Exists_absurd plainNumberChar isDateSeparator v); [|exact Htail|].
    + intros; class_facts.
    + eapply mustHave_sound; [|exact Hv]. open_pattern. left. class_incl.
  - cbv [Seq] in Hdate. inversion Hdate as [| |r' s' u v Hu Hv| | | |]; subst.
    destruct (fun H => not_nullable_cons _ _ H Hu) as (c & u' & ->); [reflexivity|].
    simpl in Htail.
    apply Forall_app in Htail as [_ Htail].
    eapply (Forall_Exists_absurd plainNumberChar isDateSeparator v); [|exact Htail|].
    + intros; class_facts.
    + eapply mustHave_sound; [|exact Hv]. open_pattern. left. class_incl.
  - eapply (Forall_Exists_absurd numberChar JsString.isWhiteSpace w); [|exact Hall|].
    + intros; class_facts.
    + eapply mustHave_sound; [|exact Hdate]. open_pattern. right; left; left. class_incl.
  - eapply (Forall_Exists_absurd numberChar JsString.isWhiteSpace w); [|exact Hall|].
    + intros; class_facts.
    + eapply mustHave_sound; [|exact Hdate]. open_pattern. right; left; left. class_incl.
Qed.

(** ** Trimming and white space *)

Lemma trimStart_keeps (s : jsstring) (x : N) :
  x ∈ s -> JsString.isWhiteSpace x = false -> x ∈ JsString.trimStart s.
Proof.
  intros Hx Hws. induction s as [|c s IH]; [done|]. simpl.
  destruct (JsString.isWhiteSpace c) eqn:Ec; [|done].
  apply elem_of_cons in Hx as [-> | Hx]; [congruence | by apply IH].
Qed.

Lemma elem_of_rev (s : jsstring) (x : N) : x ∈ rev s <-> x ∈ s.
Proof. rewrite !list_elem_of_In. symmetry. apply in_rev. Qed.

(** [trim] removes white space only. *)
Lemma trim_keeps (s : jsstring) (x : N) :
  x ∈ s -> JsString.isWhiteSpace x = false -> x ∈ JsString.trim s.
Proof.
  intros Hx Hws. unfold JsString.trim, JsString.trimEnd.
  apply (proj2 (elem_of_rev _ x)), trimStart_keeps; [|done].
  apply (proj2 (elem_of_rev _ x)). by apply trimStart_keeps.
Qed.

Lemma trimStart_no_white_space (s : jsstring) :
  Forall (fun c => JsString.isWhiteSpace c = false) s -> JsString.trimStart s = s.
Proof. intros Hs. destruct Hs as [|c s Hc _]; [reflexivity|]. simpl. by rewrite Hc. Qed.

(** A string without white space is its own [trim]. *)
Lemma trim_no_white_space (s : jsstring) :
  Forall (fun c => JsString.isWhiteSpace c = false) s -> JsString.trim s = s.
Proof.
  intros Hs. unfold JsString.trim, JsString.trimEnd.
  rewrite (trimStart_no_white_space s Hs).
  rewrite trimStart_no_white_space; [apply rev_involutive|].
  apply Forall_forall. intros x Hx. apply (proj1 (elem_of_rev s x)) in Hx.
  rewrite Forall_forall in Hs. by apply Hs.
Qed.

Lemma isLikelyDate_Lang (v : jsstring) :
  isLikelyDate v = true
  <-> exists p, p ∈ Patterns.datePatterns /\ Lang p (JsString.trim v).
Proof.
  unfold isLikelyDate. rewrite existsb_exists. split.
  - intros (p & Hp & Hm). exists p. by rewrite list_elem_of_In, <- matches_spec.
  - intros (p & Hp & Hm). exists p. by rewrite <- list_elem_of_In, matches_spec.
Qed.

(** A date-like string has no character of [q] when [q] is disjoint from
    what dates are written with and is not white space. *)
Lemma date_lacks (q : N -> bool) (v : jsstring) :
  (forall c, q c = true -> dateChar c = true -> False) ->
  (forall c, q c = true -> JsString.isWhiteSpace c = false) ->
  Exists (fun c => q c = true) v -> isLikelyDate v = true -> False.
Proof.
  intros Hdisjoint Hws Hex (p & Hp & Hm)%isLikelyDate_Lang.
  pose proof dates_within as Hwithin. rewrite Forall_forall in Hwithin.
  pose proof (within_sound _ _ _ (Hwithin p Hp) Hm) as Hall.
  apply Exists_exists in Hex as (c & Hc & Hq).
  rewrite Forall_forall in Hall.
  apply (Hdisjoint c Hq). apply Hall. apply trim_keeps; [done | by apply Hws].
Qed.

Lemma percentage_not_currency (v : jsstring) :
  matches Patterns.percentage v = true -> matches Patterns.currency v = true -> False.
Proof.
  intros Hp%matches_spec Hc%matches_spec.
  eapply (Forall_Exists_absurd percentageChar isGlyph v).
  - intros; class_facts.
  - by eapply within_sound; [apply percentage_within|].
  - by eapply mustHave_sound; [apply currency_mustHave|].
Qed.

Lemma percentage_not_number (v : jsstring) :
  matches Patterns.percentage v = true -> matches Patterns.number v = true -> False.
Proof.
  intros Hp%matches_spec Hn%matches_spec.
  eapply (Forall_Exists_absurd numberChar isPercentSign v).
  - intros; class_facts.
  - by eapply within_sound; [apply number_within|].
  - by eapply mustHave_sound; [apply percentage_mustHave|].
Qed.

Lemma currency_not_number (v : jsstring) :
  matches Patterns.currency v = true -> matches Patterns.number v = true -> False.
Proof.
  intros Hc%matches_spec Hn%matches_spec.
  eapply (Forall_Exists_absurd numberChar isGlyph v).
  - intros; class_facts.
  - by eapply within_sound; [apply number_within|].
  - by eapply mustHave_sound; [apply currency_mustHave|].
Qed.

Lemma percentage_not_date (v : jsstring) :
  matches Patterns.percentage v = true -> isLikelyDate v = true -> False.
Proof.
  intros Hp%matches_spec. apply (date_lacks isPercentSign).
  - intros; class_facts.
  - intros; class_facts.
  - by eapply mustHave_sound; [apply percentage_mustHave|].
Qed.

Lemma currency_not_date (v : jsstring) :
  matches Patterns.currency v = true -> isLikelyDate v = true -> False.
Proof.
  intros Hc%matches_spec. apply (date_lacks isGlyph).
  - intros; class_facts.
  - intros; class_facts.
  - by eapply mustHave_sound; [apply currency_mustHave|].
Qed.

Lemma number_not_date (v : jsstring) :
  matches Patterns.number v = true -> isLikelyDate v = true -> False.
Proof.
  intros Hn%matches_spec (p & Hp & Hm)%isLikelyDate_Lang.
  rewrite trim_no_white_space in Hm; [by eapply date_not_number|].
  eapply Forall_impl; [by eapply within_sound; [apply number_within|]|].
  intros; class_facts.
Qed.

(** X19: a text has at most one of the four value shapes: one that
    matches the percentage pattern matches neither the currency nor the
    number pattern and is not date-like, one that matches the currency
    pattern does not match the number pattern and is not date-like, and
    one that matches the number pattern is not date-like. *)
Theorem value_shapes_exclusive (v : jsstring) :
  (matches Patterns.percentage v = true ->
     matches Patterns.currency v = false /\ matches Patterns.number v = false
     /\ isLikelyDate v = false)
  /\ (matches Patterns.currency v = true ->
        matches Patterns.number v = false /\ isLikelyDate v = false)
  /\ (matches Patterns.number v = true -> isLikelyDate v = false).
Proof.
  split; [|split]; intros H; repeat split; apply not_true_is_false; intros H';
    eauto using percentage_not_currency, percentage_not_number, currency_not_number,
      percentage_not_date, currency_not_date, number_not_date.
Qed.

Section WithHost.

Context `{host : Host}.

Import SheetParser.

(** X20: the order of the tests in the loop of [inferColumnType] does
    not decide the class of a value: a value is counted as a percentage,
    a currency amount or a number exactly when its trimmed text matches
    that pattern, and every value with a date-like text is counted as a
    date. *)
Theorem classify_by_own_test (raw : Cell) :
  let v := JsString.trim (toString raw) in
  (classify raw = PercentageValue <-> matches Patterns.percentage v = true)
  /\ (classify raw = CurrencyValue <-> matches Patterns.currency v = true)
  /\ (classify raw = NumberValue <-> matches Patterns.number v = true)
  /\ (isLikelyDate v = true -> classify raw = DateValue)
  /\ (classify raw = DateValue -> instanceofDate raw = true \/ isLikelyDate v = true).
Proof.
  intros v. unfold classify. fold v.
  pose proof (percentage_not_currency v). pose proof (percentage_not_number v).
  pose proof (currency_not_number v). pose proof (percentage_not_date v).
  pose proof (currency_not_date v). pose proof (number_not_date v).
  destruct (matches Patterns.percentage v), (matches Patterns.currency v),
    (matches Patterns.number v), (isLikelyDate v), (instanceofDate raw);
    simpl; repeat split; intros; try discriminate; try reflexivity; try tauto;
    exfalso; auto.
Qed.

End WithHost.

End ShapeProps.

(** * Column names are never blank or padded *)

Module ColumnNameProps.
Import SheetParser SheetParserTerms SheetParserProps.

Section WithHost.

Context `{host : Host}.

Lemma column_name_origin (sheetNames0 : list jsstring) (targetSheet : jsstring)
    (rawRows : list (list Cell)) (key : jsstring) :
  let rawHeaders := default [] (rawRows !! headerRowIndex (scanHeader rawRows)) in
  key ∈ map name (columns (parseRows sheetNames0 targetSheet rawRows)) ->
  exists i h, rawHeaders !! i = Some h /\ key = headerName i h.
Proof.
  intros rawHeaders Hkey. rewrite parseRows_names in Hkey. fold rawHeaders in Hkey.
  unfold finalHeadersOf in Hkey. change (map ?f ?l) with (f <$> l) in Hkey.
  apply list_elem_of_fmap in Hkey as (i & -> & Hi).
  apply activeColIndicesOf_bound in Hi. unfold headersOf in Hi |- *.
  rewrite length_imap in Hi.
  destruct (lookup_lt_is_Some_2 _ _ Hi) as [h Hh].
  exists i, h. split; [exact Hh|]. by rewrite list_lookup_imap, Hh.
Qed.

Lemma digits_no_white_space (d : Decimal.uint) :
  Forall (fun c => JsString.isWhiteSpace c = false)
         (JsString.lit (NilEmpty.string_of_uint d)).
Proof. induction d; simpl; constructor; done. Qed.

Lemma placeholder_no_white_space (i : nat) :
  Forall (fun c => JsString.isWhiteSpace c = false)
         (js "Column_" ++ JsString.ofNat (i + 1)).
Proof.
  apply Forall_app. split; [by repeat constructor|]. apply digits_no_white_space.
Qed.

(** X21: every column name of a parsed table is non-empty and carries no
    white space at either end: trimming it again changes nothing. *)
Theorem column_names_trimmed (sheetNames0 : list jsstring) (targetSheet : jsstring)
    (rawRows : list (list Cell)) (col : Column) :
  col ∈ columns (parseRows sheetNames0 targetSheet rawRows) ->
  name col <> [] /\ JsString.trim (name col) = name col.
Proof.
  intros Hcol.
  assert (Hname : name col ∈ map name (columns (parseRows sheetNames0 targetSheet rawRows))).
  { change (map ?f ?l) with (f <$> l). apply list_elem_of_fmap. by exists col. }
  apply column_name_origin in Hname as (i & h & _ & ->).
  rewrite headerName_cases. destruct (isFilled h) eqn:Hfilled.
  - split; [|apply InferenceMore.trim_idempotent].
    apply isFilled_spec in Hfilled. tauto.
  - split; [discriminate|].
    apply ShapeProps.trim_no_white_space, placeholder_no_white_space.
Qed.

End WithHost.

End ColumnNameProps.

(** * The further statements on concrete inputs *)

Module MoreChartWitnesses.
Import Examples MoreExamples.
Import ChartSuggester ChartSuggesterTerms ChartSuggesterMore.

Lemma chart_refers_to_input_columns_witness :
  exists x n,
    x ∈ documentExample /\ n ∈ documentExample
    /\ xColumn (lineChart dateColumn amountColumn) = Some (name x)
    /\ yColumn (lineChart dateColumn amountColumn) = name n
    /\ type n ∈ [js "Number"; js "Currency"; js "Percentage"]
    /\ ((type x = js "Date"
         /\ (chartType (lineChart dateColumn amountColumn) = line
             \/ chartType (lineChart dateColumn amountColumn) = area))
        \/ (type x = js "Category"
            /\ (chartType (lineChart dateColumn amountColumn) = bar
                \/ chartType (lineChart dateColumn amountColumn) = pie))).
Proof.
  apply (chart_refers_to_input_columns documentExample).
  vm_compute. apply list_elem_of_here.
Defined.

Lemma suggestion_id_without_white_space_witness :
  id (lineChart dateColumn amountColumn) = js "line_Date_Amount"
  /\ Forall (fun c => JsString.isWhiteSpace c = false)
            (id (lineChart dateColumn amountColumn)).
Proof.
  split; [reflexivity|].
  apply (suggestion_id_without_white_space documentExample).
  vm_compute. apply list_elem_of_here.
Defined.

Lemma documentExample_plain (c : Column) : c ∈ documentExample -> plainName c.
Proof.
  intros Hc. unfold documentExample in Hc.
  repeat (apply elem_of_cons in Hc as [-> | Hc]);
    [| | |by apply elem_of_nil in Hc];
    unfold plainName; cbn [name JsString.lit];
    repeat (constructor; [split; [reflexivity | discriminate]|]); constructor.
Qed.

Lemma suggestion_id_identifies_witness :
  lineChart dateColumn amountColumn = lineChart dateColumn amountColumn.
Proof.
  apply (suggestion_id_identifies documentExample).
  - vm_compute. repeat (apply NoDup_cons; split; [|]); try apply NoDup_nil_2;
      intros H; repeat (apply elem_of_cons in H as [H|H]; [discriminate H|]);
      by apply elem_of_nil in H.
  - apply documentExample_plain.
  - vm_compute. apply list_elem_of_here.
  - vm_compute. apply list_elem_of_here.
  - reflexivity.
Defined.

Lemma suggestions_permutation_witness :
  charts (suggestCharts documentExample) ≡ₚ charts (suggestCharts documentExampleSwapped)
  /\ statCards (suggestCharts documentExample)
     ≡ₚ statCards (suggestCharts documentExampleSwapped).
Proof. apply (suggestions_permutation documentExample documentExampleSwapped), perm_swap. Defined.

End MoreChartWitnesses.

Module MoreParserWitnesses.
Import Examples MoreExamples.
Import SheetParser SheetParserTerms SheetParserProps SheetParserMore InferenceMore
  ColumnNameProps.

Lemma budget_rows : rows budgetTable = map (rowObject budgetNames budgetActive) budgetDataRows.
Proof. reflexivity. Qed.

Lemma budgetFirstObject_row : budgetFirstObject ∈ rows budgetTable.
Proof.
  rewrite budget_rows. apply list_elem_of_fmap. exists budgetFirstRow.
  split; [reflexivity|]. vm_compute. apply list_elem_of_here.
Qed.

Lemma parseFile_selected_sheet_witness :
  sheetNames budgetTable = [js "Sheet1"]
  /\ selectedSheet budgetTable ∈ [js "Sheet1"]
  /\ exists row rows0,
       Sheets (workbookOf budgetSheet) !! selectedSheet budgetTable = Some (row :: rows0).
Proof.
  apply (parseFile_selected_sheet (workbookOf budgetSheet) None budgetTable).
  apply parseFile_workbookOf. discriminate.
Defined.

Lemma retained_rows_witness :
  rowCount budgetTable + headerRowIndex (scanHeader budgetSheet) + 1 <= length budgetSheet.
Proof.
  apply (retained_rows [js "Sheet1"] (js "Sheet1") budgetSheet). discriminate.
Defined.

Lemma row_keys_and_values_witness :
  dom (properties budgetFirstObject) = list_to_set (map name (columns budgetTable))
  /\ prototype budgetFirstObject = ObjectPrototype
  /\ (forall key val, properties budgetFirstObject !! key = Some val ->
        val = CNull \/ isFilled val = true).
Proof.
  destruct (row_keys_and_values [js "Sheet1"] (js "Sheet1") budgetSheet budgetFirstObject
              budgetFirstObject_row) as (_ & _ & Hplain & Hvalues).
  destruct Hplain as [Hdom Hproto].
  - intros Hin. vm_compute in Hin.
    repeat (apply elem_of_cons in Hin as [Hin|Hin]; [discriminate Hin|]).
    by apply elem_of_nil in Hin.
  - split; [exact Hdom|]. split; [exact Hproto | exact Hvalues].
Defined.

Lemma row_lookup_witness :
  exists obj, rows budgetTable !! 0 = Some obj
    /\ properties obj !! js "Amount" = Some (text "$1,800.00").
Proof.
  destruct (row_lookup [js "Sheet1"] (js "Sheet1") budgetSheet 0 1 1 budgetFirstRow
              (js "Amount")) as (obj & Hobj & Hval).
  - discriminate.
  - vm_compute. reflexivity.
  - vm_compute. reflexivity.
  - vm_compute. reflexivity.
  - intros j Hj. destruct j as [|[|[|[|j]]]]; try lia; vm_compute; discriminate.
  - exists obj. split; [exact Hobj | exact Hval].
Defined.

(** A column named [__proto__] leaves no key in the row objects: a text
    under it is ignored, a blank cell under it takes the prototype
    away. *)
Example proto_column_example :
  let t := parseRows [js "Sheet1"] (js "Sheet1") protoSheet in
  map name (columns t) = [js "__proto__"; js "Kind"; js "Note"]
  /\ map (fun row => properties row !! js "__proto__") (rows t) = [None; None]
  /\ map (fun row => properties row !! js "Kind") (rows t)
     = [Some (text "Food"); Some (text "Rent")]
  /\ map prototype (rows t) = [ObjectPrototype; NullPrototype].
Proof. repeat split; vm_compute; reflexivity. Qed.

(** With two such columns the second write finds no prototype after a
    blank cell and creates the key. *)
Example proto_twin_column_example :
  let t := parseRows [js "Sheet1"] (js "Sheet1") protoTwinSheet in
  map name (columns t) = [js "__proto__"; js "__proto__"; js "Kind"]
  /\ map (fun row => properties row !! js "__proto__") (rows t)
     = [None; Some (text "y")]
  /\ map prototype (rows t) = [ObjectPrototype; NullPrototype].
Proof. repeat split; vm_compute; reflexivity. Qed.

Lemma budgetAmountColumn_lookup : columns budgetTable !! 1 = Some budgetAmountColumn.
Proof. vm_compute. reflexivity. Qed.

Lemma budgetAmountColumn_elem : budgetAmountColumn ∈ columns budgetTable.
Proof. eapply list_elem_of_lookup_2. apply budgetAmountColumn_lookup. Qed.

Lemma column_sample_witness :
  length (sample budgetAmountColumn) <= 5
  /\ Forall (fun v => isFilled v = true) (sample budgetAmountColumn)
  /\ (sample budgetAmountColumn = [] -> type budgetAmountColumn = Text).
Proof.
  apply (column_sample [js "Sheet1"] (js "Sheet1") budgetSheet budgetAmountColumn).
  apply budgetAmountColumn_elem.
Defined.

Lemma column_has_header_or_data_witness :
  exists colIndex h,
    budgetHeaderRow !! colIndex = Some h
    /\ name budgetAmountColumn = headerName colIndex h
    /\ (isFilled h = true \/ sample budgetAmountColumn <> []).
Proof.
  apply (column_has_header_or_data [js "Sheet1"] (js "Sheet1") budgetSheet 1
           budgetAmountColumn).
  apply budgetAmountColumn_lookup.
Defined.

Lemma column_names_trimmed_witness :
  name budgetAmountColumn <> []
  /\ JsString.trim (name budgetAmountColumn) = name budgetAmountColumn.
Proof.
  apply (column_names_trimmed [js "Sheet1"] (js "Sheet1") budgetSheet budgetAmountColumn).
  apply budgetAmountColumn_elem.
Defined.

Lemma blank_sheet_gives_empty_table_witness :
  columns (parseRows [js "Sheet1"] (js "Sheet1") blankSheet) = []
  /\ rows (parseRows [js "Sheet1"] (js "Sheet1") blankSheet) = []
  /\ preview (parseRows [js "Sheet1"] (js "Sheet1") blankSheet) = []
  /\ rowCount (parseRows [js "Sheet1"] (js "Sheet1") blankSheet) = 0.
Proof.
  apply (blank_sheet_gives_empty_table [js "Sheet1"] (js "Sheet1") blankSheet).
  repeat constructor.
Defined.

Lemma header_only_columns_witness :
  map name (columns (parseRows [js "Sheet1"] (js "Sheet1") headerOnlySheet))
  = [js "Date"; js "Amount"]
  /\ Forall (fun col => type col = Text /\ sample col = [])
            (columns (parseRows [js "Sheet1"] (js "Sheet1") headerOnlySheet))
  /\ rows (parseRows [js "Sheet1"] (js "Sheet1") headerOnlySheet) = [].
Proof.
  apply (header_only_columns [js "Sheet1"] (js "Sheet1") headerOnlySheet).
  vm_compute. reflexivity.
Defined.

Lemma inferColumnType_decided_by_shares_witness :
  inferColumnType currencyValues = Currency
  <-> 6 * length currencyValues <= 10 * countOf CurrencyValue currencyValues.
Proof.
  destruct (inferColumnType_decided_by_shares currencyValues) as (_ & H & _);
    [discriminate | exact H].
Defined.

Lemma inferColumnType_more_of_the_same_witness :
  inferColumnType (text "$99" :: currencyValues) = inferColumnType currencyValues.
Proof.
  apply (inferColumnType_more_of_the_same (text "$99") currencyValues).
  right; left. split; vm_compute; reflexivity.
Defined.

Lemma manyTexts_Text : inferColumnType manyTexts = Text.
Proof. vm_compute. reflexivity. Qed.

Lemma text_needs_many_values_witness :
  manyTexts = [] \/ (20 < distinctTexts manyTexts /\ 20 < length manyTexts).
Proof. apply (text_needs_many_values manyTexts), manyTexts_Text. Defined.

End MoreParserWitnesses.
